(** * Verification of the [prompt] library

    A shallow embedding of [src/prompt/builder.py] (class [PromptBuilder])
    and [src/prompt/template.py] (class [PromptTemplate]).

    Modelling conventions.
    - Python [str] is modelled by [string], the UTF-8 bytes of the text.
      What depends on the Unicode tables is kept out of the functions
      below: [str.upper] is a parameter of the development, [repr] is
      defined on ASCII text only, and a field name of [str.format] with a
      character outside ASCII, which may be a decimal digit, is left out.
    - A Python [dict] with string keys is a [gmap string _]; a Python [set]
      of strings is a [gset string].
    - Mutable objects that can be shared (the builder's message list, the
      message dicts, the template's default dict) live in a store indexed
      by references, so that aliasing is visible.
    - A call returns or raises. Two further outcomes mark the border of
      the model: a read through a dangling reference, which the stores of
      the theorems exclude, and the parts of [str.format] that are left
      out (attribute and index access, conversions, format
      specifications). *)

From Stdlib Require Import ZArith Ascii String List.
From stdpp Require Import base tactics option list strings pretty gmap sets fin_maps.

Local Open Scope Z_scope.

(* ===================================================================== *)
(** ** Python primitives used by the library *)
(* ===================================================================== *)

Module Py.

(** Values that can be bound to template variables (the [Any] of the
    type annotations, restricted to text and integers). *)
Inductive value :=
| VStr (s : string)
| VInt (z : Z).

(** Exceptions that the modelled code can raise. *)
Inductive exn :=
| KeyError (key : string)
| IndexError (index : Z)
| ValueError (msg : string)
| TypeError (msg : string).

(** The default of [sys.get_int_max_str_digits()]. *)
Definition int_max_str_digits : nat := 4300.

(** [str(v)], which is also [format(v, "")]: an integer with more decimal
    digits than the limit is refused. *)
Definition str (v : value) : exn + string :=
  match v with
  | VStr s => inr s
  | VInt z =>
      if (int_max_str_digits <? String.length (pretty (Z.abs z)))%nat
      then inl (ValueError
                  ("Exceeds the limit (4300 digits) for integer string conversion; "
                   +:+ "use sys.set_int_max_str_digits() to increase the limit"))
      else inr (pretty z)
  end.

(** Whether [str(v)] returns. *)
Definition renders (v : value) : bool :=
  match str v with
  | inr _ => true
  | inl _ => false
  end.

(** Result of a call. [Stuck] is a read through a dangling or ill-typed
    reference; [Unmodelled] is Python behaviour this development does not
    describe (attribute and index access in a replacement field,
    conversions, non-empty format specifications). *)
Inductive outcome (A : Type) :=
| Return (a : A)
| Raise (e : exn)
| Stuck
| Unmodelled.
Arguments Return {A} a.
Arguments Raise {A} e.
Arguments Stuck {A}.
Arguments Unmodelled {A}.

Definition ascii_code (c : ascii) : nat := nat_of_ascii c.

(** [c.upper()] on ASCII. *)
Definition upper_ascii (c : ascii) : ascii :=
  if (97 <=? ascii_code c)%nat && (ascii_code c <=? 122)%nat
  then ascii_of_nat (ascii_code c - 32)
  else c.

(** [s.upper()] follows the Unicode case tables, which are not part of
    this development: it is a parameter. *)
Class Text := { upper : string -> string }.

(** [s.upper()] for ASCII text [s]. *)
Fixpoint ascii_upper (s : string) : string :=
  match s with
  | EmptyString => EmptyString
  | String c s' => String (upper_ascii c) (ascii_upper s')
  end.

(** The instance for the examples, all of them on ASCII text. *)
#[global] Instance ascii_text : Text := {| upper := ascii_upper |}.

(** [sep.join(parts)]. *)
Fixpoint join (sep : string) (parts : list string) : string :=
  match parts with
  | [] => ""
  | [p] => p
  | p :: ps => p +:+ sep +:+ join sep ps
  end.

(** [c in s] for a character [c]. *)
Fixpoint contains (c : ascii) (s : string) : bool :=
  match s with
  | EmptyString => false
  | String c' s' => if Ascii.eqb c' c then true else contains c s'
  end.

Definition hex_digit (n : nat) : ascii :=
  if (n <? 10)%nat then ascii_of_nat (48 + n) else ascii_of_nat (87 + n).

(** One character of [repr(s)] with the chosen quote character. *)
Definition repr_char (quote : ascii) (c : ascii) : string :=
  if Ascii.eqb c quote || Ascii.eqb c "\"
  then String "\" (String c "")
  else if Ascii.eqb c "009" then "\t"
  else if Ascii.eqb c "010" then "\n"
  else if Ascii.eqb c "013" then "\r"
  else if (ascii_code c <? 32)%nat || Ascii.eqb c "127"
  then String "\" (String "x"
         (String (hex_digit (ascii_code c / 16))
            (String (hex_digit (ascii_code c mod 16)) "")))
  else String c "".

Fixpoint repr_body (quote : ascii) (s : string) : string :=
  match s with
  | EmptyString => EmptyString
  | String c s' => repr_char quote c +:+ repr_body quote s'
  end.

(** The double-quote character. *)
Definition dquote : ascii := "034".

(** Whether every character is an ASCII one. *)
Fixpoint is_ascii (s : string) : bool :=
  match s with
  | EmptyString => true
  | String c s' => (ascii_code c <? 128)%nat && is_ascii s'
  end.

(** [repr(s)] for ASCII text: single quotes, unless the text has a single
    quote and no double quote. Which other characters are printable is a
    matter of the Unicode tables: no result for them. *)
Definition repr (s : string) : option string :=
  if is_ascii s then
    let quote : ascii :=
      if contains "'" s && negb (contains dquote s) then dquote else "'"%char in
    Some (String quote (repr_body quote s +:+ String quote ""))
  else None.

End Py.

Import Py.

(* ===================================================================== *)
(** ** The object store *)
(* ===================================================================== *)

Module Store.

(** References to objects. *)
Definition loc := nat.

(** A message dict [{"role": r, "content": c}]. *)
Record Message := mkMessage { role : string; content : string }.

(** Objects of the two classes and the containers they use. *)
Inductive object :=
| OList (items : list loc)
| OMessage (m : Message)
| ODict (d : gmap string value)
| OChat (msgs : loc)
| OBuilder (messages context : loc)
| OTemplate (template : string) (defaults : loc).

Abbreviation store := (gmap loc object).

(** Allocation of a new object at an unused reference. *)
Definition alloc (o : object) (σ : store) : loc * store :=
  let l := fresh (dom σ) in (l, <[l := o]> σ).

(** Computations over the store; the store survives a raise. *)
Definition M (A : Type) : Type := store -> outcome A * store.

Definition ret {A} (a : A) : M A := fun σ => (Return a, σ).

Definition raise {A} (e : exn) : M A := fun σ => (Raise e, σ).

Definition stuck {A} : M A := fun σ => (Stuck, σ).

Definition bind {A B} (m : M A) (f : A -> M B) : M B :=
  fun σ =>
    match m σ with
    | (Return a, σ') => f a σ'
    | (Raise e, σ') => (Raise e, σ')
    | (Stuck, σ') => (Stuck, σ')
    | (Unmodelled, σ') => (Unmodelled, σ')
    end.

#[global] Instance M_ret : MRet M := @ret.
#[global] Instance M_bind : MBind M := fun A B f m => bind m f.

Definition new (o : object) : M loc :=
  fun σ => let (l, σ') := alloc o σ in (Return l, σ').

Definition get_list (l : loc) : M (list loc) :=
  fun σ => match σ !! l with Some (OList xs) => (Return xs, σ) | _ => (Stuck, σ) end.

Definition get_message (l : loc) : M Message :=
  fun σ => match σ !! l with Some (OMessage m) => (Return m, σ) | _ => (Stuck, σ) end.

Definition get_dict (l : loc) : M (gmap string value) :=
  fun σ => match σ !! l with Some (ODict d) => (Return d, σ) | _ => (Stuck, σ) end.

Definition put (l : loc) (o : object) : M unit :=
  fun σ => (Return tt, <[l := o]> σ).

(** [xs.append(x)] on the list object at [l]. *)
Definition list_append (l x : loc) : M unit :=
  xs ← get_list l; put l (OList (xs ++ [x])).

(** [xs.copy()]: a new list object with the same element references. *)
Definition list_copy (l : loc) : M loc :=
  xs ← get_list l; new (OList xs).

(** Monadic map over a Python iteration. *)
Fixpoint for_each {A B} (f : A -> M B) (xs : list A) : M (list B) :=
  match xs with
  | [] => ret []
  | x :: xs' => y ← f x; ys ← for_each f xs'; ret (y :: ys)
  end.

(** The message a reference points to. *)
Definition deref (σ : store) (l : loc) : option Message :=
  match σ !! l with
  | Some (OMessage msg) => Some msg
  | _ => None
  end.

(** The messages held by the list object at [l], read through the store. *)
Definition contents (σ : store) (l : loc) : option (list Message) :=
  match σ !! l with
  | Some (OList xs) => mapM (deref σ) xs
  | _ => None
  end.

End Store.

Import Store.


(* ===================================================================== *)
(** ** [PromptBuilder] (builder.py) *)
(* ===================================================================== *)

Module PromptBuilder.

Definition fields (self : loc) : M (loc * loc) :=
  fun σ => match σ !! self with
           | Some (OBuilder lm lc) => (Return (lm, lc), σ)
           | _ => (Stuck, σ)
           end.

(** [PromptBuilder()] *)
Definition __init__ : M loc :=
  lm ← new (OList []);
  lc ← new (ODict ∅);
  new (OBuilder lm lc).

(** [self.messages.append({"role": role, "content": content}); return self] *)
Definition add_message (self : loc) (role content : string) : M loc :=
  f ← fields self;
  m ← new (OMessage (mkMessage role content));
  _ ← list_append f.1 m;
  ret self.

Definition add_system (self : loc) (content : string) : M loc :=
  f ← fields self;
  m ← new (OMessage (mkMessage "system" content));
  _ ← list_append f.1 m;
  ret self.

Definition add_user (self : loc) (content : string) : M loc :=
  f ← fields self;
  m ← new (OMessage (mkMessage "user" content));
  _ ← list_append f.1 m;
  ret self.

Definition add_assistant (self : loc) (content : string) : M loc :=
  f ← fields self;
  m ← new (OMessage (mkMessage "assistant" content));
  _ ← list_append f.1 m;
  ret self.

(** [self.context[key] = value; return self] *)
Definition set_context (self : loc) (key : string) (v : value) : M loc :=
  f ← fields self;
  d ← get_dict f.2;
  _ ← put f.2 (ODict (<[key := v]> d));
  ret self.

(** [self.messages = []; self.context = {}; return self] *)
Definition clear (self : loc) : M loc :=
  _ ← fields self;
  lm ← new (OList []);
  lc ← new (ODict ∅);
  _ ← put self (OBuilder lm lc);
  ret self.

(** The loop of [_build_string], then the join. *)
Definition _build_string `{Text} (self : loc) : M string :=
  f ← fields self;
  msgs ← get_list f.1;
  parts ← for_each
            (fun l => msg ← get_message l;
                      ret (upper (role msg) +:+ ": " +:+ content msg))
            msgs;
  ret (join (String "010" (String "010" "")) parts).

(** [{"messages": self.messages.copy()}] *)
Definition _build_chat_format (self : loc) : M loc :=
  f ← fields self;
  c ← list_copy f.1;
  new (OChat c).

(** What [build] hands back: a list, a string, or a chat record. *)
Inductive built :=
| BMessages (l : loc)
| BString (s : string)
| BChat (d : loc).

Definition build `{Text} (self : loc) (format : string) : M built :=
  if String.eqb format "messages" then
    f ← fields self;
    c ← list_copy f.1;
    ret (BMessages c)
  else if String.eqb format "string" then
    s ← _build_string self;
    ret (BString s)
  else if String.eqb format "chat" then
    d ← _build_chat_format self;
    ret (BChat d)
  else raise (ValueError ("Unknown format: " +:+ format)).

(** [len(builder)] *)
Definition __len__ (self : loc) : M nat :=
  f ← fields self;
  msgs ← get_list f.1;
  ret (length msgs).

(** [str(builder)] *)
Definition __str__ `{Text} (self : loc) : M string := _build_string self.

End PromptBuilder.

(* ===================================================================== *)
(** ** [re.findall] for the pattern of [get_variables] *)
(* ===================================================================== *)

(** [get_variables] calls [re.findall] with the pattern [\{([^}]+)\}]: an
    opening brace, one or more characters other than a closing brace
    (the group), a closing brace. *)

Module Re.

(** The greedy class repetition [[^}]*]: the longest prefix without a
    closing brace, and what follows it. *)
Fixpoint span_not_close (s : string) : string * string :=
  match s with
  | EmptyString => (EmptyString, EmptyString)
  | String c s' =>
      if Ascii.eqb c "}" then (EmptyString, s)
      else let (g, r) := span_not_close s' in (String c g, r)
  end.

(** A match of [\{([^}]+)\}] at the start of [s]: the group and the input
    after the match. The class must take at least one character and be
    followed by a closing brace; giving back characters of the greedy run
    cannot help, since each of them is not a closing brace. *)
Definition match_here (s : string) : option (string * string) :=
  match s with
  | EmptyString => None
  | String c body =>
      if Ascii.eqb c "{" then
        match span_not_close body with
        | (String g0 g, String _ rest) => Some (String g0 g, rest)
        | _ => None
        end
      else None
  end.

(** Leftmost non-overlapping matches: after a match the search resumes
    behind it, after a failure one character further. *)
Fixpoint findall_from (fuel : nat) (s : string) : list string :=
  match fuel with
  | O => []
  | S fuel' =>
      match match_here s with
      | Some (g, rest) => g :: findall_from fuel' rest
      | None =>
          match s with
          | EmptyString => []
          | String _ s' => findall_from fuel' s'
          end
      end
  end.

(** [re.findall(r'\{([^}]+)\}', s)] *)
Definition findall (s : string) : list string :=
  findall_from (String.length s) s.

End Re.

(* ===================================================================== *)
(** ** [str.format] with keyword arguments only *)
(* ===================================================================== *)

(** [template.py] renders with Python's own [str.format], called with
    keyword arguments only. The model follows CPython's implementation
    (the markup iterator, [parse_field], [field_name_split] and
    [get_integer] of [Objects/stringlib/unicode_format.h]): literal text
    with doubled braces, then one replacement field at a time, each field
    rendered before the next one is parsed. A field whose value is found
    and that has accessors, a conversion or a format specification is
    left out of the model. *)

Module StrFormat.

(** A parsed replacement field [{name!conversion:spec}]. *)
Record field := mkField {
  field_name : string;
  conversion : option ascii;
  format_spec : string
}.

Definition is_brace (c : ascii) : bool := Ascii.eqb c "{" || Ascii.eqb c "}".

(** Literal text up to the first brace; the brace and the input after it. *)
Fixpoint scan_literal (s : string) : string * option (ascii * string) :=
  match s with
  | EmptyString => (EmptyString, None)
  | String c s' =>
      if is_brace c then (EmptyString, Some (c, s'))
      else let (t, r) := scan_literal s' in (String c t, r)
  end.

Definition push {A B E : Type} (c : ascii) (r : E + (string * A * B))
  : E + (string * A * B) :=
  match r with
  | inl e => inl e
  | inr (s, a, b) => inr (String c s, a, b)
  end.

(** The field name: up to a closing brace, a colon or an exclamation mark;
    inside [[...]] everything up to the closing bracket is skipped. *)
Fixpoint scan_field_name (in_index : bool) (s : string)
  : exn + (string * ascii * string) :=
  match s with
  | EmptyString => inl (ValueError "expected '}' before end of string")
  | String c s' =>
      if in_index then push c (scan_field_name (negb (Ascii.eqb c "]")) s')
      else if Ascii.eqb c "{" then inl (ValueError "unexpected '{' in field name")
      else if Ascii.eqb c "[" then push c (scan_field_name true s')
      else if Ascii.eqb c "}" || Ascii.eqb c ":" || Ascii.eqb c "!"
      then inr (EmptyString, c, s')
      else push c (scan_field_name false s')
  end.

(** The format specification: up to the closing brace that balances the
    opening one, [depth] being the number of nested fields still open. *)
Fixpoint scan_format_spec (depth : nat) (s : string)
  : exn + (string * unit * string) :=
  match s with
  | EmptyString => inl (ValueError "unmatched '{' in format spec")
  | String c s' =>
      if Ascii.eqb c "{" then push c (scan_format_spec (S depth) s')
      else if Ascii.eqb c "}" then
        match depth with
        | O => inr (EmptyString, tt, s')
        | S d => push c (scan_format_spec d s')
        end
      else push c (scan_format_spec depth s')
  end.

Definition with_spec (name : string) (conv : option ascii) (s : string)
  : exn + (field * string) :=
  match scan_format_spec 0 s with
  | inl e => inl e
  | inr (spec, _, rest) => inr (mkField name conv spec, rest)
  end.

(** [parse_field]: the input starts just after the opening brace. *)
Definition parse_field (s : string) : exn + (field * string) :=
  match scan_field_name false s with
  | inl e => inl e
  | inr (name, c, rest) =>
      if Ascii.eqb c "}" then inr (mkField name None EmptyString, rest)
      else if Ascii.eqb c "!" then
        match rest with
        | EmptyString =>
            inl (ValueError "end of string while looking for conversion specifier")
        | String conv EmptyString => inl (ValueError "unmatched '{' in format spec")
        | String conv (String c2 r2) =>
            if Ascii.eqb c2 "}" then inr (mkField name (Some conv) EmptyString, r2)
            else if Ascii.eqb c2 ":" then with_spec name (Some conv) r2
            else inl (ValueError "expected ':' after conversion specifier")
        end
      else with_spec name None rest
  end.

(** One step of the markup iterator. *)
Inductive markup :=
| MDone
| MText (literal : string) (f : option field) (rest : string).

Definition MarkupIterator_next (s : string) : exn + markup :=
  match s with
  | EmptyString => inr MDone
  | _ =>
      match scan_literal s with
      | (t, None) => inr (MText t None EmptyString)
      | (t, Some (c, EmptyString)) =>
          if Ascii.eqb c "}"
          then inl (ValueError "Single '}' encountered in format string")
          else inl (ValueError "Single '{' encountered in format string")
      | (t, Some (c, String c' r)) =>
          if Ascii.eqb c "}" && negb (Ascii.eqb c' "}")
          then inl (ValueError "Single '}' encountered in format string")
          else if Ascii.eqb c c'
          then inr (MText (t +:+ String c EmptyString) None r)
          else
            match parse_field (String c' r) with
            | inl e => inl e
            | inr (f, rest) => inr (MText t (Some f) rest)
            end
      end
  end.

Definition is_digit (c : ascii) : bool :=
  (48 <=? ascii_code c)%nat && (ascii_code c <=? 57)%nat.

Definition digit_value (c : ascii) : Z := Z.of_nat (ascii_code c) - 48.

(** Largest [Py_ssize_t] (64-bit build). *)
Definition PY_SSIZE_T_MAX : Z := 2 ^ 63 - 1.

Fixpoint get_integer_from (acc : Z) (s : string) : exn + option Z :=
  match s with
  | EmptyString => inr (Some acc)
  | String c s' =>
      if is_digit c then
        if acc >? (PY_SSIZE_T_MAX - digit_value c) / 10
        then inl (ValueError "Too many decimal digits in format string")
        else get_integer_from (acc * 10 + digit_value c) s'
      else inr None
  end.

(** [get_integer]: the decimal value of a non-empty all-digit string. *)
Definition get_integer (s : string) : exn + option Z :=
  match s with
  | EmptyString => inr None
  | _ => get_integer_from 0 s
  end.

(** The part of a field name before the first [.] or [[], and the rest. *)
Fixpoint field_name_split (name : string) : string * string :=
  match name with
  | EmptyString => (EmptyString, EmptyString)
  | String c s' =>
      if Ascii.eqb c "." || Ascii.eqb c "[" then (EmptyString, name)
      else let (a, r) := field_name_split s' in (String c a, r)
  end.

(** The object a field names, with the accessors still to apply. There
    are no positional arguments, so a numbered or empty name is out of
    range; the first automatic number is 0. [get_integer] reads ASCII
    digits: CPython also reads the other decimal digits of Unicode, so a
    name with a character outside ASCII is left out. *)
Definition get_field_object (name : string) (kwargs : gmap string value)
  : outcome (value * string) :=
  let (first, rest) := field_name_split name in
  if negb (is_ascii first) then Unmodelled
  else
    match get_integer first with
    | inl e => Raise e
    | inr (Some i) => Raise (IndexError i)
    | inr None =>
        match first with
        | EmptyString => Raise (IndexError 0)
        | _ =>
            match kwargs !! first with
            | None => Raise (KeyError first)
            | Some v => Return (v, rest)
            end
        end
    end.

(** Rendering of one field. *)
Definition output_markup (f : field) (kwargs : gmap string value)
  : outcome string :=
  match get_field_object (field_name f) kwargs with
  | Return (v, rest) =>
      match rest, conversion f, format_spec f with
      | EmptyString, None, EmptyString =>
          match str v with
          | inr t => Return t
          | inl e => Raise e
          end
      | _, _, _ => Unmodelled
      end
  | Raise e => Raise e
  | Stuck => Stuck
  | Unmodelled => Unmodelled
  end.

Definition prepend (s : string) (o : outcome string) : outcome string :=
  match o with
  | Return t => Return (s +:+ t)
  | other => other
  end.

Fixpoint do_markup (fuel : nat) (s : string) (kwargs : gmap string value)
  : outcome string :=
  match fuel with
  | O => Return EmptyString
  | S fuel' =>
      match MarkupIterator_next s with
      | inl e => Raise e
      | inr MDone => Return EmptyString
      | inr (MText lit None rest) => prepend lit (do_markup fuel' rest kwargs)
      | inr (MText lit (Some f) rest) =>
          match output_markup f kwargs with
          | Return t => prepend (lit +:+ t) (do_markup fuel' rest kwargs)
          | other => other
          end
      end
  end.

(** [s.format] applied to the keyword arguments [kwargs] *)
Definition format (s : string) (kwargs : gmap string value) : outcome string :=
  do_markup (String.length s) s kwargs.

End StrFormat.

(* ===================================================================== *)
(** ** [PromptTemplate] (template.py) *)
(* ===================================================================== *)

Module PromptTemplate.

Definition fields (self : loc) : M (string * loc) :=
  fun σ => match σ !! self with
           | Some (OTemplate t d) => (Return (t, d), σ)
           | _ => (Stuck, σ)
           end.

(** In the methods below [kwargs] (and [defaults] in the constructor) is
    the mapping of the keyword arguments of the call. *)

(** The TypeError of a call that gives a positional parameter a second
    time, by keyword. *)
Definition multiple_values (method argument : string) : exn :=
  TypeError ("PromptTemplate." +:+ method
             +:+ "() got multiple values for argument '" +:+ argument +:+ "'").

(** [PromptTemplate(template, **defaults)]. A keyword named like one of
    the positional parameters is refused before the body runs; when both
    names are given, the one reported is the first in the order of the
    call, which a mapping does not record. *)
Definition __init__ (template : string) (defaults : gmap string value) : M loc :=
  match defaults !! "self", defaults !! "template" with
  | Some _, Some _ => fun σ => (Unmodelled, σ)
  | Some _, None => raise (multiple_values "__init__" "self")
  | None, Some _ => raise (multiple_values "__init__" "template")
  | None, None =>
      d ← new (ODict defaults);
      new (OTemplate template d)
  end.

(** [{**self.defaults, **kwargs}]: a new dict, later entries win. *)
Definition merge (self : loc) (kwargs : gmap string value)
  : M (gmap string value) :=
  f ← fields self;
  d ← get_dict f.2;
  v ← new (ODict (kwargs ∪ d));
  get_dict v.

(** The error of [format] for a KeyError: [str(e)] is [repr(key)]. *)
Definition missing_variable (key : string) : outcome string :=
  match repr key with
  | Some quoted =>
      Raise (ValueError ("Missing required template variable: " +:+ quoted))
  | None => Unmodelled
  end.

(** [template.format] with keyword arguments. A keyword named [self] is refused before
    the body runs. *)
Definition format (self : loc) (kwargs : gmap string value) : M string :=
  match kwargs !! "self" with
  | Some _ => raise (multiple_values "format" "self")
  | None =>
      variables ← merge self kwargs;
      f ← fields self;
      match StrFormat.format f.1 variables with
      | Return s => ret s
      | Raise (KeyError key) => fun σ => (missing_variable key, σ)
      | Raise e => raise e
      | Stuck => stuck
      | Unmodelled => fun σ => (Unmodelled, σ)
      end
  end.

Definition get_variables (self : loc) : M (list string) :=
  f ← fields self;
  ret (Re.findall f.1).

(** [template.validate] with keyword arguments. A keyword named [self] is refused
    before the body runs. *)
Definition validate (self : loc) (kwargs : gmap string value) : M bool :=
  match kwargs !! "self" with
  | Some _ => raise (multiple_values "validate" "self")
  | None =>
      variables ← merge self kwargs;
      names ← get_variables self;
      let required_vars : gset string := list_to_set names in
      let provided_vars : gset string := dom variables in
      ret (bool_decide (required_vars ⊆ provided_vars))
  end.

Definition __str__ (self : loc) : M string :=
  f ← fields self;
  ret f.1.

End PromptTemplate.

(* ===================================================================== *)
(** ** The placeholder scan in the words of the specification *)
(* ===================================================================== *)

Module SpecWords.

(** The text before the next closing brace, and the input after it. *)
Fixpoint until_close (s : string) : option (string * string) :=
  match s with
  | EmptyString => None
  | String c s' =>
      if Ascii.eqb c "}" then Some (EmptyString, s')
      else match until_close s' with
           | Some (t, r) => Some (String c t, r)
           | None => None
           end
  end.

(** Left to right: each opening brace that has a closing brace after it
    starts a span that ends at the next closing brace; the enclosed text is
    the identifier, and the scan goes on behind the span. *)
Fixpoint spans_from (fuel : nat) (s : string) : list string :=
  match fuel with
  | O => []
  | S fuel' =>
      match s with
      | EmptyString => []
      | String c s' =>
          if Ascii.eqb c "{" then
            match until_close s' with
            | Some (id, rest) => id :: spans_from fuel' rest
            | None => spans_from fuel' s'
            end
          else spans_from fuel' s'
      end
  end.

Definition spans (s : string) : list string := spans_from (String.length s) s.

Definition nonempty (s : string) : bool :=
  match s with EmptyString => false | _ => true end.

(** The effective mapping: the defaults with the overrides on top. *)
Definition effective (defaults overrides : gmap string value) (k : string)
  : option value :=
  match overrides !! k with
  | Some v => Some v
  | None => defaults !! k
  end.

(** The stringified value of the specification. *)
Definition stringified (v : value) : string :=
  match v with
  | VStr s => s
  | VInt z => pretty z
  end.



End SpecWords.

(* ===================================================================== *)
(** ** Templates made of plain text and simple placeholders *)
(* ===================================================================== *)

Module Segments.

Inductive segment :=
| Lit (text : string)
| Var (name : string).

(** Characters with a meaning of their own inside a replacement field. *)
Definition special (c : ascii) : bool :=
  Ascii.eqb c "{" || Ascii.eqb c "}" || Ascii.eqb c "." || Ascii.eqb c "["
  || Ascii.eqb c "!" || Ascii.eqb c ":".

Fixpoint no_special (s : string) : bool :=
  match s with
  | EmptyString => true
  | String c s' => negb (special c) && no_special s'
  end.

(** A name of ASCII characters that is not empty, does not start with a
    digit and has no special character. *)
Definition simple_name (name : string) : bool :=
  match name with
  | EmptyString => false
  | String c _ => negb (StrFormat.is_digit c) && no_special name && is_ascii name
  end.

(** Text without braces. *)
Fixpoint plain (text : string) : bool :=
  match text with
  | EmptyString => true
  | String c s' => negb (StrFormat.is_brace c) && plain s'
  end.

Definition simple (seg : segment) : bool :=
  match seg with
  | Lit text => plain text
  | Var name => simple_name name
  end.

(** The template string a list of segments stands for. *)
Fixpoint unparse (segs : list segment) : string :=
  match segs with
  | [] => EmptyString
  | Lit text :: segs' => text +:+ unparse segs'
  | Var name :: segs' => String "{" (name +:+ String "}" (unparse segs'))
  end.

Fixpoint names (segs : list segment) : list string :=
  match segs with
  | [] => []
  | Lit _ :: segs' => names segs'
  | Var name :: segs' => name :: names segs'
  end.

(** Every placeholder replaced by the text of its value; otherwise the
    first failure in template order: a name without a value, or a value
    [str] refuses. *)
Fixpoint fill (segs : list segment) (eff : string -> option value)
  : exn + string :=
  match segs with
  | [] => inr EmptyString
  | Lit text :: segs' =>
      match fill segs' eff with
      | inr s => inr (text +:+ s)
      | inl e => inl e
      end
  | Var name :: segs' =>
      match eff name with
      | None => inl (KeyError name)
      | Some v =>
          match str v with
          | inl e => inl e
          | inr t =>
              match fill segs' eff with
              | inr s => inr (t +:+ s)
              | inl e => inl e
              end
          end
      end
  end.

(** Every placeholder that has a value has one that [str] accepts. *)
Definition well_valued (segs : list segment) (eff : string -> option value) : bool :=
  forallb (fun x => match eff x with Some v => renders v | None => true end)
          (names segs).

End Segments.

(* ===================================================================== *)
(** ** Clients of a builder *)
(* ===================================================================== *)

Module Client.
Import PromptBuilder.

(** The message sequence a builder holds, read through the store. *)
Definition held_messages (σ : store) (self : loc) : option (list Message) :=
  match σ !! self with
  | Some (OBuilder lm _) => contents σ lm
  | _ => None
  end.

(** The four ways of adding a message. *)
Inductive call :=
| AddSystem (content : string)
| AddUser (content : string)
| AddAssistant (content : string)
| AddMessage (role content : string).

Definition perform (self : loc) (c : call) : M loc :=
  match c with
  | AddSystem content => add_system self content
  | AddUser content => add_user self content
  | AddAssistant content => add_assistant self content
  | AddMessage role content => add_message self role content
  end.

(** A chain [b.add_x(..).add_y(..)...]: each call is made on the builder
    the previous one returned. *)
Fixpoint perform_all (self : loc) (cs : list call) : M loc :=
  match cs with
  | [] => ret self
  | c :: cs' => b ← perform self c; perform_all b cs'
  end.

(** The record a call is expected to add. *)
Definition message_of (c : call) : Message :=
  match c with
  | AddSystem content => mkMessage "system" content
  | AddUser content => mkMessage "user" content
  | AddAssistant content => mkMessage "assistant" content
  | AddMessage role content => mkMessage role content
  end.

(** A builder just created, or just cleared. *)
Definition fresh_builder (σ : store) (self : loc) : Prop :=
  (exists σ0, __init__ σ0 = (Return self, σ)) \/
  (exists σ0, clear self σ0 = (Return self, σ)).

(** One line of the string rendering. *)
Definition line `{Text} (m : Message) : string :=
  upper (role m) +:+ ": " +:+ content m.

Definition blank_line : string := String "010" (String "010" EmptyString).

(** What a caller can do to a list it was handed: change which elements
    the list holds (append, remove, replace, reorder), or write a field of
    the record at an index. *)
Inductive mutation :=
| SetItems (items : list loc)
| SetRole (i : nat) (r : string)
| SetContent (i : nat) (c : string).

Definition mutate (l : loc) (mu : mutation) : M unit :=
  xs ← get_list l;
  match mu with
  | SetItems items => put l (OList items)
  | SetRole i r =>
      match xs !! i with
      | Some x => m ← get_message x; put x (OMessage (mkMessage r (content m)))
      | None => raise (IndexError (Z.of_nat i))
      end
  | SetContent i c =>
      match xs !! i with
      | Some x => m ← get_message x; put x (OMessage (mkMessage (role m) c))
      | None => raise (IndexError (Z.of_nat i))
      end
  end.

(** What a caller sees of a build result. *)
Inductive seen :=
| SeenMessages (ms : list Message)
| SeenString (s : string)
| SeenChat (ms : list Message).

Definition observe (σ : store) (b : built) : option seen :=
  match b with
  | BMessages l => SeenMessages <$> contents σ l
  | BString s => Some (SeenString s)
  | BChat d =>
      match σ !! d with
      | Some (OChat l) => SeenChat <$> contents σ l
      | _ => None
      end
  end.

(** [build], with the result read back from the store. *)
Definition build_seen `{Text} (self : loc) (format : string) (σ : store)
  : outcome seen :=
  match build self format σ with
  | (Return b, σ') =>
      match observe σ' b with
      | Some v => Return v
      | None => Stuck
      end
  | (Raise e, _) => Raise e
  | (Stuck, _) => Stuck
  | (Unmodelled, _) => Unmodelled
  end.

(** The three output shapes, as functions of the held messages. *)
Definition expected_build `{Text} (format : string) (msgs : list Message)
  : outcome seen :=
  if String.eqb format "messages" then Return (SeenMessages msgs)
  else if String.eqb format "string"
  then Return (SeenString (join blank_line (map line msgs)))
  else if String.eqb format "chat" then Return (SeenChat msgs)
  else Raise (ValueError ("Unknown format: " +:+ format)).

(** A caller builds the message list, overwrites the content of its first
    record, and renders the builder before and after. *)
Definition overwrite_first_record : M (built * built) :=
  b ← __init__;
  _ ← add_user b "hi";
  before ← build b "string";
  r ← build b "messages";
  _ ← match r with
      | BMessages l => mutate l (SetContent 0 "X")
      | _ => stuck
      end;
  after ← build b "string";
  ret (before, after).

(** A builder holding a system and a user message, made from nothing. *)
Definition two_messages : outcome loc * store :=
  (b ← __init__; perform_all b [AddSystem "Be brief."; AddUser "Hi"]) ∅.

End Client.

(* ===================================================================== *)
(** ** Clients of a template *)
(* ===================================================================== *)

Module TemplateClient.
Import PromptTemplate.

(** A template with a doubled closing brace and no placeholder. *)
Definition format_doubled_close : M string :=
  t ← __init__ "a}}b" ∅;
  format t ∅.


(** The variables of a template that is an empty pair of braces. *)
Definition scan_empty_braces : M (list string) :=
  t ← __init__ "{}" ∅;
  get_variables t.

(** The greeting of the test suite, with a default name. *)
Definition greeting : outcome loc * store :=
  __init__ "Hello {name}" {[ "name" := VStr "World" ]} ∅.


(** The greeting, checked and scanned with an override named [self]. *)
Definition validate_override_self : M bool :=
  t ← __init__ "Hello {name}" {[ "name" := VStr "World" ]};
  validate t {[ "self" := VStr "me" ]}.

Definition scan_override_self : M (list string) :=
  t ← __init__ "Hello {name}" {[ "name" := VStr "World" ]};
  get_variables t.

End TemplateClient.

(* ===================================================================== *)
(** ** Scenarios of the test suite *)
(* ===================================================================== *)

Module Scenarios.

(** test_template_format *)
Definition template_format : M string :=
  t ← PromptTemplate.__init__ "Hello {name}, you are {age} years old." ∅;
  PromptTemplate.format t {[ "name" := VStr "Alice"; "age" := VInt 30 ]}.

(** test_template_format_missing_variable *)
Definition template_missing : M string :=
  t ← PromptTemplate.__init__ "Hello {name}" ∅;
  PromptTemplate.format t ∅.

(** test_get_variables *)
Definition template_variables : M (list string) :=
  t ← PromptTemplate.__init__ "Hello {name}, your score is {score}" ∅;
  PromptTemplate.get_variables t.

(** test_validate_with_all_variables, test_validate_with_missing_variables
    and test_validate_with_defaults *)
Definition template_validate : M (bool * bool * bool) :=
  t1 ← PromptTemplate.__init__ "Hello {name}" ∅;
  a ← PromptTemplate.validate t1 {[ "name" := VStr "Alice" ]};
  t2 ← PromptTemplate.__init__ "Hello {name}, you are {age}" ∅;
  b ← PromptTemplate.validate t2 {[ "name" := VStr "Alice" ]};
  t3 ← PromptTemplate.__init__ "Hello {name}" {[ "name" := VStr "World" ]};
  c ← PromptTemplate.validate t3 ∅;
  ret (a, b, c).

(** test_clear followed by test_len *)
Definition builder_clear_then_add : M (nat * nat * nat) :=
  b ← PromptBuilder.__init__;
  b ← PromptBuilder.add_system b "System";
  b ← PromptBuilder.add_user b "User";
  b ← PromptBuilder.set_context b "key" (VStr "value");
  n2 ← PromptBuilder.__len__ b;
  b ← PromptBuilder.clear b;
  n0 ← PromptBuilder.__len__ b;
  b ← PromptBuilder.add_user b "Test";
  n1 ← PromptBuilder.__len__ b;
  ret (n2, n0, n1).

(** test_build_string_format *)
Definition builder_string : M PromptBuilder.built :=
  b ← PromptBuilder.__init__;
  b ← PromptBuilder.add_system b "System message";
  b ← PromptBuilder.add_user b "User message";
  PromptBuilder.build b "string".

End Scenarios.

(* ===================================================================== *)
(** ** [PromptLibrary] (template.py) *)
(* ===================================================================== *)

Module PromptLibrary.

(** The line feed of the template bodies. *)
Definition nl : string := String "010" EmptyString.

Definition question_answer : M loc :=
  PromptTemplate.__init__
    ("Please answer the following question:" +:+ nl +:+ nl
     +:+ "Question: {question}" +:+ nl +:+ nl +:+ "Answer:") ∅.

Definition summarization : M loc :=
  PromptTemplate.__init__
    ("Please summarize the following text:" +:+ nl +:+ nl
     +:+ "{text}" +:+ nl +:+ nl +:+ "Summary:") ∅.

Definition translation : M loc :=
  PromptTemplate.__init__
    ("Translate the following text from {source_lang} to {target_lang}:"
     +:+ nl +:+ nl +:+ "{text}" +:+ nl +:+ nl +:+ "Translation:") ∅.

Definition code_generation : M loc :=
  PromptTemplate.__init__
    ("Generate {language} code for the following task:" +:+ nl +:+ nl
     +:+ "{task}" +:+ nl +:+ nl +:+ "Code:") ∅.

Definition classification : M loc :=
  PromptTemplate.__init__
    ("Classify the following text into one of these categories: {categories}"
     +:+ nl +:+ nl +:+ "Text: {text}" +:+ nl +:+ nl +:+ "Category:") ∅.

End PromptLibrary.

(* ===================================================================== *)
(** ** Templates with doubled braces *)
(* ===================================================================== *)

Module Braces.

(** Plain text, a placeholder, or a doubled brace. *)
Inductive piece :=
| Text (text : string)
| Field (name : string)
| OpenBrace
| CloseBrace.

Definition simple (p : piece) : bool :=
  match p with
  | Text text => Segments.plain text
  | Field name => Segments.simple_name name
  | OpenBrace => true
  | CloseBrace => true
  end.

(** The template string the pieces stand for. *)
Fixpoint unparse (ps : list piece) : string :=
  match ps with
  | [] => EmptyString
  | Text text :: ps' => text +:+ unparse ps'
  | Field name :: ps' => String "{" (name +:+ String "}" (unparse ps'))
  | OpenBrace :: ps' => String "{" (String "{" (unparse ps'))
  | CloseBrace :: ps' => String "}" (String "}" (unparse ps'))
  end.

(** The rendering: a doubled brace gives one brace; otherwise the first
    failure in template order: a name without a value, or a value [str]
    refuses. *)
Fixpoint fill (ps : list piece) (eff : string -> option value) : exn + string :=
  match ps with
  | [] => inr EmptyString
  | Text text :: ps' =>
      match fill ps' eff with
      | inr s => inr (text +:+ s)
      | inl e => inl e
      end
  | Field name :: ps' =>
      match eff name with
      | None => inl (KeyError name)
      | Some v =>
          match str v with
          | inl e => inl e
          | inr t =>
              match fill ps' eff with
              | inr s => inr (t +:+ s)
              | inl e => inl e
              end
          end
      end
  | OpenBrace :: ps' =>
      match fill ps' eff with
      | inr s => inr (String "{" s)
      | inl e => inl e
      end
  | CloseBrace :: ps' =>
      match fill ps' eff with
      | inr s => inr (String "}" s)
      | inl e => inl e
      end
  end.

(** What [format] makes of the first failure: a missing name becomes the
    missing-variable error, any other error is passed on. *)
Definition reported (r : exn + string) : outcome string :=
  match r with
  | inr s => Return s
  | inl (KeyError key) => PromptTemplate.missing_variable key
  | inl e => Raise e
  end.

End Braces.

(* ===================================================================== *)
(** ** More views of the store *)
(* ===================================================================== *)

Module Views.

(** The context mapping a builder holds, read through the store. *)
Definition held_context (σ : store) (self : loc) : option (gmap string value) :=
  match σ !! self with
  | Some (OBuilder _ lc) =>
      match σ !! lc with
      | Some (ODict d) => Some d
      | _ => None
      end
  | _ => None
  end.

(** Every object except the one at [k] is kept. *)
Definition kept_except (k : loc) (σ σ' : store) : Prop :=
  forall l o, l <> k -> σ !! l = Some o -> σ' !! l = Some o.

(** A template whose placeholder stands between doubled braces. *)
Definition braced : outcome loc * store :=
  PromptTemplate.__init__ "{{{name}}}" ∅ ∅.

(** A template without any brace. *)
Definition fixed_text : outcome loc * store :=
  PromptTemplate.__init__ "Hello" {[ "name" := VStr "World" ]} ∅.

(** A template with an empty pair of braces. *)
Definition empty_placeholder : outcome loc * store :=
  PromptTemplate.__init__ "Hi {}" ∅ ∅.

End Views.

(* ===================================================================== *)
(** ** Facts about strings *)
(* ===================================================================== *)

Section StringFacts.

Lemma append_nil (b : string) : EmptyString +:+ b = b.
Proof. reflexivity. Qed.

Lemma append_cons (c : ascii) (a b : string) :
  String c a +:+ b = String c (a +:+ b).
Proof. reflexivity. Qed.

Lemma length_append (a b : string) :
  String.length (a +:+ b) = (String.length a + String.length b)%nat.
Proof.
  induction a as [|c a IH]; [done |].
  rewrite append_cons. simpl. by rewrite IH.
Qed.

Lemma append_assoc (a b c : string) : (a +:+ b) +:+ c = a +:+ (b +:+ c).
Proof.
  induction a as [|x a IH]; [done |].
  rewrite !append_cons. by rewrite IH.
Qed.

Lemma append_empty_r (a : string) : a +:+ EmptyString = a.
Proof.
  induction a as [|x a IH]; [done |].
  rewrite append_cons. by rewrite IH.
Qed.

Lemma contains_append (c : ascii) (a b : string) :
  contains c (a +:+ b) = contains c a || contains c b.
Proof.
  induction a as [|x a IH]; [done |].
  rewrite append_cons. simpl.
  destruct (Ascii.eqb x c); [done | exact IH].
Qed.

End StringFacts.

(* ===================================================================== *)
(** ** Facts about the regular-expression scan *)
(* ===================================================================== *)

Module ReFacts.
Import Re SpecWords.

Lemma span_not_close_length s g r :
  span_not_close s = (g, r) ->
  String.length s = (String.length g + String.length r)%nat.
Proof.
  revert g r. induction s as [|c s IH]; intros g r; simpl.
  - by intros [= <- <-].
  - destruct (Ascii.eqb c "}").
    + by intros [= <- <-].
    + destruct (span_not_close s) as [g' r'] eqn:E.
      intros [= <- <-]. simpl. by rewrite (IH g' r').
Qed.

Lemma span_not_close_group s g r :
  span_not_close s = (g, r) -> contains "}" g = false.
Proof.
  revert g r. induction s as [|c s IH]; intros g r; simpl.
  - by intros [= <- <-].
  - destruct (Ascii.eqb c "}") eqn:Ec.
    + by intros [= <- <-].
    + destruct (span_not_close s) as [g' r'] eqn:E.
      intros [= <- <-]. simpl.
      rewrite Ec. by apply (IH g' r').
Qed.

Lemma span_not_close_rest s g c r :
  span_not_close s = (g, String c r) -> c = "}"%char.
Proof.
  revert g. induction s as [|x s IH]; intros g; simpl.
  - done.
  - destruct (Ascii.eqb x "}") eqn:Ex.
    + intros [= <- <- <-]. by apply Ascii.eqb_eq.
    + destruct (span_not_close s) as [g' r'] eqn:E.
      intros [= <- ->]. by apply (IH g').
Qed.

(** A run without closing brace, then a closing brace. *)
Lemma span_not_close_app g rest :
  contains "}" g = false ->
  span_not_close (g +:+ String "}" rest) = (g, String "}" rest).
Proof.
  induction g as [|c g IH]; [done |].
  rewrite append_cons. simpl.
  destruct (Ascii.eqb c "}"); [done |]. intros H. by rewrite IH.
Qed.

Lemma match_here_length s g rest :
  match_here s = Some (g, rest) ->
  String.length s = (String.length g + String.length rest + 2)%nat.
Proof.
  destruct s as [|c body]; simpl; [done |].
  destruct (Ascii.eqb c "{"); [| done].
  destruct (span_not_close body) as [[|g0 g'] [|c' r]] eqn:E; try done.
  intros [= <- <-]. apply span_not_close_length in E. simpl in *. lia.
Qed.

Lemma findall_from_enough n m s :
  (String.length s <= n)%nat -> (String.length s <= m)%nat ->
  findall_from n s = findall_from m s.
Proof.
  revert m s. induction n as [|n IH]; intros m s Hn Hm.
  - destruct s; [| simpl in Hn; lia]. by destruct m.
  - destruct m as [|m].
    + destruct s; [done | simpl in Hm; lia].
    + simpl. destruct (match_here s) as [[g rest]|] eqn:E.
      * apply match_here_length in E. f_equal. apply IH; lia.
      * destruct s as [|c s']; [done |]. simpl in *. apply IH; lia.
Qed.

(** The defining equation of the scan, free of fuel. *)
Lemma findall_eq s :
  findall s =
  match match_here s with
  | Some (g, rest) => g :: findall rest
  | None => match s with
            | EmptyString => []
            | String _ s' => findall s'
            end
  end.
Proof.
  unfold findall. destruct s as [|c s']; [done |].
  cbn [String.length findall_from].
  destruct (match_here (String c s')) as [[g rest]|] eqn:E.
  - apply match_here_length in E. f_equal.
    apply findall_from_enough; simpl in *; lia.
  - done.
Qed.

Lemma findall_cons_other c s :
  Ascii.eqb c "{" = false -> findall (String c s) = findall s.
Proof. intros H. rewrite findall_eq. simpl. by rewrite H. Qed.

Lemma findall_literal a s :
  contains "{" a = false -> findall (a +:+ s) = findall s.
Proof.
  induction a as [|c a IH]; [done |].
  rewrite append_cons. simpl.
  destruct (Ascii.eqb c "{") eqn:E; [done |]. intros H.
  rewrite findall_cons_other; [by apply IH | done].
Qed.

Lemma findall_placeholder g0 g s :
  contains "}" (String g0 g) = false ->
  findall (String "{" (String g0 g +:+ String "}" s)) = String g0 g :: findall s.
Proof.
  intros H. rewrite findall_eq.
  unfold match_here. rewrite Ascii.eqb_refl.
  by rewrite (span_not_close_app (String g0 g) s H).
Qed.

Lemma findall_empty_braces s :
  findall (String "{" (String "}" s)) = findall s.
Proof.
  rewrite findall_eq. simpl. rewrite findall_eq. by simpl.
Qed.

Lemma findall_identifiers s :
  Forall (fun id => nonempty id = true /\ contains "}" id = false) (findall s).
Proof.
  unfold findall. generalize (String.length s) as n. intros n. revert s.
  induction n as [|n IH]; intros s; simpl; [constructor |].
  destruct (match_here s) as [[g rest]|] eqn:E.
  - constructor; [| apply IH].
    destruct s as [|c body]; simpl in E; [done |].
    destruct (Ascii.eqb c "{"); [| done].
    destruct (span_not_close body) as [[|g0 g'] [|c' r]] eqn:E'; try done.
    injection E as <- <-. split; [done |].
    by apply span_not_close_group in E'.
  - destruct s; [constructor | apply IH].
Qed.

Lemma until_close_span s :
  until_close s =
  match span_not_close s with
  | (g, String _ rest) => Some (g, rest)
  | (_, EmptyString) => None
  end.
Proof.
  induction s as [|c s IH]; simpl; [done |].
  destruct (Ascii.eqb c "}"); [done |].
  rewrite IH. by destruct (span_not_close s) as [g [|c' r]].
Qed.

Lemma until_close_length s id rest :
  until_close s = Some (id, rest) ->
  String.length s = (String.length id + String.length rest + 1)%nat.
Proof.
  rewrite until_close_span.
  destruct (span_not_close s) as [g [|c r]] eqn:E; [done |].
  intros [= <- <-]. apply span_not_close_length in E. simpl in E. lia.
Qed.

Lemma spans_from_enough n m s :
  (String.length s <= n)%nat -> (String.length s <= m)%nat ->
  spans_from n s = spans_from m s.
Proof.
  revert m s. induction n as [|n IH]; intros m s Hn Hm.
  - destruct s; [| simpl in Hn; lia]. by destruct m.
  - destruct m as [|m].
    + destruct s; [done | simpl in Hm; lia].
    + destruct s as [|c s']; [done |]. simpl in *.
      destruct (Ascii.eqb c "{").
      * destruct (until_close s') as [[id rest]|] eqn:E.
        -- apply until_close_length in E. f_equal. apply IH; lia.
        -- apply IH; lia.
      * apply IH; lia.
Qed.

Lemma spans_eq c s :
  spans (String c s) =
  if Ascii.eqb c "{" then
    match until_close s with
    | Some (id, rest) => id :: spans rest
    | None => spans s
    end
  else spans s.
Proof.
  unfold spans. cbn [String.length spans_from].
  destruct (Ascii.eqb c "{"); [| done].
  destruct (until_close s) as [[id rest]|] eqn:E; [| done].
  apply until_close_length in E. f_equal. apply spans_from_enough; lia.
Qed.

(** The regular expression finds the spans with a non-empty text. *)
Lemma findall_spans s : findall s = filter (fun id => nonempty id = true) (spans s).
Proof.
  remember (String.length s) as n eqn:Hn.
  revert s Hn. induction (lt_wf n) as [n _ IH]. intros s ->.
  destruct s as [|c s]; [done |].
  rewrite findall_eq, spans_eq. unfold match_here.
  destruct (Ascii.eqb c "{"); [| apply (IH (String.length s)); simpl; lia].
  rewrite until_close_span.
  destruct (span_not_close s) as [g [|c' rest]] eqn:E.
  - destruct g; apply (IH (String.length s)); simpl; lia.
  - pose proof (span_not_close_length _ _ _ E) as HL. simpl in HL.
    destruct g as [|g0 g].
    + rewrite filter_cons_False by done.
      destruct s as [|x s]; [done |]. simpl in E.
      destruct (Ascii.eqb x "}") eqn:Ex.
      * injection E as <- <-.
        rewrite findall_cons_other;
          [| apply Ascii.eqb_eq in Ex; by subst x].
        apply (IH (String.length s)); simpl; lia.
      * destruct (span_not_close s); done.
    + rewrite filter_cons_True by done. f_equal.
      apply (IH (String.length rest)); simpl in *; lia.
Qed.

End ReFacts.

(* ===================================================================== *)
(** ** Facts about the store *)
(* ===================================================================== *)

Module StoreFacts.

Lemma fresh_unused (σ : store) : σ !! fresh (dom σ) = None.
Proof. apply not_elem_of_dom, is_fresh. Qed.

Lemma insert_fresh_subseteq (σ : store) o : σ ⊆ <[fresh (dom σ) := o]> σ.
Proof. apply insert_subseteq, fresh_unused. Qed.

Lemma used_not_fresh (σ : store) l o : σ !! l = Some o -> l <> fresh (dom σ).
Proof. intros H ->. rewrite fresh_unused in H. done. Qed.

Lemma bind_Return {A B} (m : M A) (k : A -> M B) σ a σ' :
  m σ = (Return a, σ') -> (x ← m; k x) σ = k a σ'.
Proof. intros H. unfold mbind, M_bind, bind. by rewrite H. Qed.

Lemma new_eq o (σ : store) :
  new o σ = (Return (fresh (dom σ)), <[fresh (dom σ) := o]> σ).
Proof. reflexivity. Qed.

Lemma get_list_ok (σ : store) l xs :
  σ !! l = Some (OList xs) -> get_list l σ = (Return xs, σ).
Proof. intros H. unfold get_list. by rewrite H. Qed.

Lemma get_message_ok (σ : store) l m :
  σ !! l = Some (OMessage m) -> get_message l σ = (Return m, σ).
Proof. intros H. unfold get_message. by rewrite H. Qed.

Lemma get_dict_ok (σ : store) l d :
  σ !! l = Some (ODict d) -> get_dict l σ = (Return d, σ).
Proof. intros H. unfold get_dict. by rewrite H. Qed.

Lemma deref_Some (σ : store) l m :
  deref σ l = Some m <-> σ !! l = Some (OMessage m).
Proof.
  unfold deref. destruct (σ !! l) as [[]|]; split; intros H; by simplify_eq.
Qed.

Lemma contents_Some (σ : store) l msgs :
  contents σ l = Some msgs <->
  exists xs, σ !! l = Some (OList xs) /\
             Forall2 (fun x m => σ !! x = Some (OMessage m)) xs msgs.
Proof.
  unfold contents. split.
  - destruct (σ !! l) as [[xs| | | | |]|]; try done.
    intros H%mapM_Some_1. exists xs. split; [done |].
    eapply Forall2_impl; [exact H |]. intros x m. apply deref_Some.
  - intros (xs & -> & H). apply mapM_Some_2.
    eapply Forall2_impl; [exact H |]. intros x m. apply deref_Some.
Qed.

(** Messages stay readable in a larger store. *)
Lemma messages_weaken (σ σ' : store) xs msgs :
  σ ⊆ σ' ->
  Forall2 (fun x m => σ !! x = Some (OMessage m)) xs msgs ->
  Forall2 (fun x m => σ' !! x = Some (OMessage m)) xs msgs.
Proof.
  intros Hsub H. eapply Forall2_impl; [exact H |].
  intros x m Hx. simpl in *. exact (lookup_weaken _ _ _ _ Hx Hsub).
Qed.

Lemma contents_weaken (σ σ' : store) l msgs :
  σ ⊆ σ' -> contents σ l = Some msgs -> contents σ' l = Some msgs.
Proof.
  intros Hsub (xs & Hl & H)%contents_Some. apply contents_Some.
  exists xs. split; [by eapply lookup_weaken | by eapply messages_weaken].
Qed.

End StoreFacts.

(* ===================================================================== *)
(** ** Facts about the builder *)
(* ===================================================================== *)

Module BuilderFacts.
Import PromptBuilder Client StoreFacts.

Lemma builder_fields_ok (σ : store) self lm lc :
  σ !! self = Some (OBuilder lm lc) -> fields self σ = (Return (lm, lc), σ).
Proof. intros H. unfold fields. by rewrite H. Qed.

Lemma held_messages_Some (σ : store) self msgs :
  held_messages σ self = Some msgs <->
  exists lm lc xs,
    σ !! self = Some (OBuilder lm lc) /\ σ !! lm = Some (OList xs) /\
    Forall2 (fun x m => σ !! x = Some (OMessage m)) xs msgs.
Proof.
  unfold held_messages. split.
  - destruct (σ !! self) as [[| | | |lm lc|]|]; try done.
    intros (xs & ? & ?)%contents_Some. by exists lm, lc, xs.
  - intros (lm & lc & xs & -> & ? & ?). apply contents_Some. by exists xs.
Qed.

Lemma held_messages_weaken (σ σ' : store) self msgs :
  σ ⊆ σ' -> held_messages σ self = Some msgs -> held_messages σ' self = Some msgs.
Proof.
  intros Hsub (lm & lc & xs & Hs & Hl & H)%held_messages_Some.
  apply held_messages_Some. exists lm, lc, xs.
  repeat split; [by eapply lookup_weaken .. | by eapply messages_weaken].
Qed.

(** The three named helpers are [add_message] at a fixed role. *)
Lemma perform_add_message self c :
  perform self c = add_message self (role (message_of c)) (content (message_of c)).
Proof. by destruct c. Qed.

Lemma add_message_held (σ : store) self msgs r c :
  held_messages σ self = Some msgs ->
  exists σ', add_message self r c σ = (Return self, σ') /\
             held_messages σ' self = Some (msgs ++ [mkMessage r c]).
Proof.
  intros (lm & lc & xs & Hs & Hl & H)%held_messages_Some.
  set (m := fresh (dom σ)).
  assert (Hm : σ !! m = None) by apply fresh_unused.
  assert (m <> self) by (intros E; rewrite E in Hm; congruence).
  assert (m <> lm) by (intros E; rewrite E in Hm; congruence).
  assert (self <> lm) by (intros E; rewrite E in Hs; congruence).
  exists (<[lm := OList (xs ++ [m])]> (<[m := OMessage (mkMessage r c)]> σ)).
  split.
  - unfold add_message.
    rewrite (bind_Return _ _ _ _ _ (builder_fields_ok _ _ _ _ Hs)).
    rewrite (bind_Return _ _ _ _ _ (new_eq _ _)). fold m.
    unfold list_append. simpl.
    assert (Hl' : (<[m := OMessage (mkMessage r c)]> σ) !! lm = Some (OList xs))
      by (by rewrite lookup_insert_ne).
    unfold mbind at 1, M_bind, bind.
    rewrite (bind_Return _ _ _ _ _ (get_list_ok _ _ _ Hl')). done.
  - apply held_messages_Some. exists lm, lc, (xs ++ [m]).
    split; [by rewrite !lookup_insert_ne |].
    split; [by rewrite lookup_insert_eq |].
    apply Forall2_app.
    + eapply Forall2_impl; [exact H |]. intros x msg Hx. simpl in Hx.
      rewrite !lookup_insert_ne; [done | ..]; intros E; rewrite E in *; congruence.
    + constructor; [| constructor].
      rewrite lookup_insert_ne by done. by rewrite lookup_insert_eq.
Qed.

Lemma perform_all_held (σ : store) self msgs cs :
  held_messages σ self = Some msgs ->
  exists σ', perform_all self cs σ = (Return self, σ') /\
             held_messages σ' self = Some (msgs ++ map message_of cs).
Proof.
  revert σ msgs. induction cs as [|c cs IH]; intros σ msgs H; simpl.
  - exists σ. by rewrite app_nil_r.
  - rewrite perform_add_message.
    destruct (add_message_held σ self msgs (role (message_of c))
                (content (message_of c)) H) as (σ1 & Hrun & H1).
    destruct (IH σ1 _ H1) as (σ2 & Hrun2 & H2).
    exists σ2. rewrite (bind_Return _ _ _ _ _ Hrun). split; [done |].
    rewrite H2. rewrite <- app_assoc. by destruct (message_of c).
Qed.

Lemma len_held (σ : store) self msgs :
  held_messages σ self = Some msgs ->
  __len__ self σ = (Return (length msgs), σ).
Proof.
  intros (lm & lc & xs & Hs & Hl & H)%held_messages_Some.
  unfold __len__.
  rewrite (bind_Return _ _ _ _ _ (builder_fields_ok _ _ _ _ Hs)).
  rewrite (bind_Return _ _ _ _ _ (get_list_ok _ _ _ Hl)).
  by rewrite (Forall2_length _ _ _ H).
Qed.

Lemma for_each_lines {T : Text} (σ : store) xs msgs :
  Forall2 (fun x m => σ !! x = Some (OMessage m)) xs msgs ->
  for_each (fun l => msg ← get_message l;
                     ret (upper (role msg) +:+ ": " +:+ content msg)) xs σ
  = (Return (map line msgs), σ).
Proof.
  induction 1 as [|x m xs msgs Hx _ IH]; simpl; [done |].
  erewrite bind_Return; [| erewrite bind_Return; [| by apply get_message_ok]; done].
  by rewrite (bind_Return _ _ _ _ _ IH).
Qed.

Lemma build_string_held {T : Text} (σ : store) self msgs :
  held_messages σ self = Some msgs ->
  _build_string self σ = (Return (join blank_line (map line msgs)), σ).
Proof.
  intros (lm & lc & xs & Hs & Hl & H)%held_messages_Some.
  unfold _build_string.
  rewrite (bind_Return _ _ _ _ _ (builder_fields_ok _ _ _ _ Hs)).
  rewrite (bind_Return _ _ _ _ _ (get_list_ok _ _ _ Hl)).
  by rewrite (bind_Return _ _ _ _ _ (for_each_lines _ _ _ H)).
Qed.

Lemma list_copy_held (σ : store) self lm lc xs msgs :
  σ !! self = Some (OBuilder lm lc) -> σ !! lm = Some (OList xs) ->
  Forall2 (fun x m => σ !! x = Some (OMessage m)) xs msgs ->
  list_copy lm σ = (Return (fresh (dom σ)), <[fresh (dom σ) := OList xs]> σ) /\
  contents (<[fresh (dom σ) := OList xs]> σ) (fresh (dom σ)) = Some msgs.
Proof.
  intros Hs Hl H. split.
  - unfold list_copy. by rewrite (bind_Return _ _ _ _ _ (get_list_ok _ _ _ Hl)).
  - apply contents_Some. exists xs. split; [by rewrite lookup_insert_eq |].
    eapply messages_weaken; [apply insert_fresh_subseteq | done].
Qed.

Lemma build_messages_held {T : Text} (σ : store) self msgs :
  held_messages σ self = Some msgs ->
  exists xs,
    build self "messages" σ
    = (Return (BMessages (fresh (dom σ))), <[fresh (dom σ) := OList xs]> σ) /\
    contents (<[fresh (dom σ) := OList xs]> σ) (fresh (dom σ)) = Some msgs.
Proof.
  intros (lm & lc & xs & Hs & Hl & H)%held_messages_Some.
  destruct (list_copy_held σ self lm lc xs msgs Hs Hl H) as [Hc Hr].
  exists xs. split; [| done].
  unfold build. simpl.
  rewrite (bind_Return _ _ _ _ _ (builder_fields_ok _ _ _ _ Hs)).
  by rewrite (bind_Return _ _ _ _ _ Hc).
Qed.

Lemma build_chat_held (σ : store) self msgs :
  held_messages σ self = Some msgs ->
  exists d c σ',
    _build_chat_format self σ = (Return d, σ') /\
    σ' !! d = Some (OChat c) /\ contents σ' c = Some msgs.
Proof.
  intros (lm & lc & xs & Hs & Hl & H)%held_messages_Some.
  destruct (list_copy_held σ self lm lc xs msgs Hs Hl H) as [Hc Hr].
  set (c := fresh (dom σ)) in *.
  set (σ1 := <[c := OList xs]> σ) in *.
  exists (fresh (dom σ1)), c, (<[fresh (dom σ1) := OChat c]> σ1).
  split; [| split].
  - unfold _build_chat_format.
    rewrite (bind_Return _ _ _ _ _ (builder_fields_ok _ _ _ _ Hs)).
    by rewrite (bind_Return _ _ _ _ _ Hc).
  - by rewrite lookup_insert_eq.
  - exact (contents_weaken _ _ _ _ (insert_fresh_subseteq _ _) Hr).
Qed.

(** What [build] shows depends on the held messages only. *)
Lemma build_seen_held {T : Text} (σ : store) self format msgs :
  held_messages σ self = Some msgs ->
  build_seen self format σ = expected_build format msgs.
Proof.
  intros Hheld. unfold build_seen, expected_build, build.
  destruct (String.eqb format "messages") eqn:E1.
  { apply String.eqb_eq in E1 as ->.
    destruct (build_messages_held σ self msgs Hheld) as (xs & Hb & Hc).
    unfold build in Hb. simpl in Hb. rewrite Hb. simpl. by rewrite Hc. }
  destruct (String.eqb format "string") eqn:E2.
  { by rewrite (bind_Return _ _ _ _ _ (build_string_held _ _ _ Hheld)). }
  destruct (String.eqb format "chat") eqn:E3; [| done].
  destruct (build_chat_held σ self msgs Hheld) as (d & c & σ' & Hrun & Hd & Hc).
  rewrite (bind_Return _ _ _ _ _ Hrun). simpl. by rewrite Hd, Hc.
Qed.

Lemma init_held (σ0 σ : store) self :
  __init__ σ0 = (Return self, σ) -> held_messages σ self = Some [].
Proof.
  unfold __init__. rewrite !(bind_Return _ _ _ _ _ (new_eq _ _)), new_eq.
  intros [= <- <-]. apply held_messages_Some.
  set (lm := fresh (dom σ0)).
  set (σ1 := <[lm := OList []]> σ0).
  set (lc := fresh (dom σ1)).
  set (σ2 := <[lc := ODict ∅]> σ1).
  exists lm, lc, []. split; [by rewrite lookup_insert_eq |]. split; [| constructor].
  assert (H1 : σ1 !! lm = Some (OList [])) by apply lookup_insert_eq.
  assert (H2 : σ2 !! lm = Some (OList [])).
  { eapply lookup_weaken; [exact H1 | apply insert_fresh_subseteq]. }
  eapply lookup_weaken; [exact H2 | apply insert_fresh_subseteq].
Qed.

Lemma clear_held (σ0 σ : store) self :
  clear self σ0 = (Return self, σ) -> held_messages σ self = Some [].
Proof.
  unfold clear.
  destruct (σ0 !! self) as [[| | | |lm0 lc0|]|] eqn:Hs;
    try (unfold mbind at 1, M_bind, bind, fields; rewrite Hs; discriminate).
  rewrite (bind_Return _ _ _ _ _ (builder_fields_ok _ _ _ _ Hs)).
  rewrite !(bind_Return _ _ _ _ _ (new_eq _ _)).
  unfold mbind, M_bind, bind, put, ret. intros [= <-].
  set (lm := fresh (dom σ0)).
  set (σ1 := <[lm := OList []]> σ0).
  set (lc := fresh (dom σ1)).
  assert (H1 : σ1 !! lm = Some (OList [])) by apply lookup_insert_eq.
  assert (lm <> self) by (intros E; pose proof (fresh_unused σ0); fold lm in H; congruence).
  assert (lc <> lm) by (intros E; pose proof (fresh_unused σ1); fold lc in H0; congruence).
  apply held_messages_Some. exists lm, lc, [].
  split; [by rewrite lookup_insert_eq |]. split; [| constructor].
  rewrite lookup_insert_ne by done. by rewrite lookup_insert_ne.
Qed.

End BuilderFacts.

(* ===================================================================== *)
(** ** Theorems about [PromptBuilder] *)
(* ===================================================================== *)

Module BuilderTheorems.
Import PromptBuilder Client StoreFacts BuilderFacts.

(** C1 (as amended). [build("messages")] returns a new list object that
    holds the builder's messages in order (a shallow copy). Whatever
    elements the caller then makes the returned list hold (append, remove,
    replace, reorder), the builder still holds the same messages and every
    later [build] shows what it showed before. *)
Theorem build_messages_copies_list {T : Text} (σ : store) self msgs r σ1 :
  held_messages σ self = Some msgs ->
  build self "messages" σ = (Return (BMessages r), σ1) ->
  contents σ1 r = Some msgs /\
  forall items,
    exists σ2,
      mutate r (SetItems items) σ1 = (Return tt, σ2) /\
      held_messages σ2 self = Some msgs /\
      forall format, build_seen self format σ2 = build_seen self format σ1.
Proof.
  intros Hheld Hbuild.
  destruct (build_messages_held σ self msgs Hheld) as (xs & Hb & Hc).
  rewrite Hb in Hbuild. injection Hbuild as <- <-.
  split; [done |]. intros items.
  set (r := fresh (dom σ)) in *.
  exists (<[r := OList items]> σ).
  assert (Hsub : σ ⊆ <[r := OList items]> σ) by apply insert_fresh_subseteq.
  assert (H1 : held_messages (<[r := OList xs]> σ) self = Some msgs).
  { eapply held_messages_weaken; [apply insert_fresh_subseteq | done]. }
  assert (H2 : held_messages (<[r := OList items]> σ) self = Some msgs).
  { eapply held_messages_weaken; [exact Hsub | done]. }
  split; [| split; [done |]].
  - unfold mutate.
    erewrite bind_Return; [| apply get_list_ok, lookup_insert_eq].
    unfold put. by rewrite insert_insert_eq.
  - intros format.
    by rewrite (build_seen_held _ _ _ _ H1), (build_seen_held _ _ _ _ H2).
Qed.

Lemma build_messages_copies_list_witness :
  held_messages two_messages.2 2%nat
    = Some [mkMessage "system" "Be brief."; mkMessage "user" "Hi"] /\
  (contents (build 2%nat "messages" two_messages.2).2 5%nat
     = Some [mkMessage "system" "Be brief."; mkMessage "user" "Hi"] /\
   forall items,
     exists σ2,
       mutate 5%nat (SetItems items) (build 2%nat "messages" two_messages.2).2
         = (Return tt, σ2) /\
       held_messages σ2 2%nat
         = Some [mkMessage "system" "Be brief."; mkMessage "user" "Hi"] /\
       forall format,
         build_seen 2%nat format σ2
         = build_seen 2%nat format (build 2%nat "messages" two_messages.2).2).
Proof.
  split; [vm_compute; reflexivity |].
  apply (build_messages_copies_list two_messages.2 2%nat).
  - vm_compute; reflexivity.
  - vm_compute; reflexivity.
Defined.

(** C1 (as stated) fails on a record: after a caller overwrites the
    content of the first record of the returned list, the builder renders
    the new content. *)
Lemma record_mutation_reaches_builder :
  (overwrite_first_record ∅).1 = Return (BString "USER: hi", BString "USER: X").
Proof. vm_compute; reflexivity. Qed.

(** C7. After N calls of [add_system], [add_user], [add_assistant] or
    [add_message], chained on a builder just created or just cleared, the
    length is N and [build("messages")] shows exactly the N records of the
    calls, in call order, repeats included. *)
Theorem add_calls_counted_in_order {T : Text} (σ : store) self cs :
  fresh_builder σ self ->
  exists σ1,
    perform_all self cs σ = (Return self, σ1) /\
    __len__ self σ1 = (Return (length cs), σ1) /\
    build_seen self "messages" σ1 = Return (SeenMessages (map message_of cs)).
Proof.
  intros Hfresh.
  assert (H0 : held_messages σ self = Some []).
  { destruct Hfresh as [[σ0 H]|[σ0 H]]; [by eapply init_held | by eapply clear_held]. }
  destruct (perform_all_held σ self [] cs H0) as (σ1 & Hrun & H1).
  simpl in H1. exists σ1. split; [done |]. split.
  - rewrite (len_held _ _ _ H1). by rewrite length_map.
  - by rewrite (build_seen_held _ _ _ _ H1).
Qed.

Lemma add_calls_counted_in_order_witness :
  fresh_builder (__init__ ∅).2 2%nat /\
  exists σ1,
    perform_all 2%nat [AddUser "a"; AddMessage "tool" "b"; AddUser "a"] (__init__ ∅).2
      = (Return 2%nat, σ1) /\
    __len__ 2%nat σ1 = (Return 3%nat, σ1) /\
    build_seen 2%nat "messages" σ1
      = Return (SeenMessages
                  [mkMessage "user" "a"; mkMessage "tool" "b"; mkMessage "user" "a"]).
Proof.
  assert (H : fresh_builder (__init__ ∅).2 2%nat).
  { left. exists ∅. vm_compute; reflexivity. }
  split; [exact H |].
  exact (add_calls_counted_in_order (__init__ ∅).2 2%nat
           [AddUser "a"; AddMessage "tool" "b"; AddUser "a"] H).
Defined.

(** C8. Whatever function [str.upper] is: [build("string")] returns, for
    the held messages in order, the lines [ROLE: content] with the role
    upper-cased by it, joined by a blank line; [str(builder)] returns the
    same string. Neither changes the store. *)
Theorem build_string_joins_lines {T : Text} (σ : store) self msgs :
  held_messages σ self = Some msgs ->
  build self "string" σ = (Return (BString (join blank_line (map line msgs))), σ) /\
  __str__ self σ = (Return (join blank_line (map line msgs)), σ).
Proof.
  intros H. split.
  - unfold build. simpl.
    by rewrite (bind_Return _ _ _ _ _ (build_string_held _ _ _ H)).
  - by apply build_string_held.
Qed.

Lemma build_string_joins_lines_witness :
  held_messages two_messages.2 2%nat
    = Some [mkMessage "system" "Be brief."; mkMessage "user" "Hi"] /\
  build 2%nat "string" two_messages.2
    = (Return (BString ("SYSTEM: Be brief." +:+ blank_line +:+ "USER: Hi")),
       two_messages.2) /\
  __str__ 2%nat two_messages.2
    = (Return ("SYSTEM: Be brief." +:+ blank_line +:+ "USER: Hi"), two_messages.2).
Proof.
  assert (H : held_messages two_messages.2 2%nat
              = Some [mkMessage "system" "Be brief."; mkMessage "user" "Hi"])
    by (vm_compute; reflexivity).
  split; [exact H |].
  exact (build_string_joins_lines two_messages.2 2%nat _ H).
Defined.

(** C9. For a format other than "messages", "string" and "chat", [build]
    raises a ValueError whose message ends with the format it was given,
    and leaves the store as it was. *)
Theorem build_unknown_format {T : Text} (σ : store) self format :
  format <> "messages" -> format <> "string" -> format <> "chat" ->
  build self format σ = (Raise (ValueError ("Unknown format: " +:+ format)), σ).
Proof.
  intros H1 H2 H3. unfold build.
  apply String.eqb_neq in H1, H2, H3. by rewrite H1, H2, H3.
Qed.

Lemma build_unknown_format_witness :
  build 2%nat "bogus" two_messages.2
  = (Raise (ValueError "Unknown format: bogus"), two_messages.2).
Proof.
  apply (build_unknown_format two_messages.2 2%nat "bogus"); discriminate.
Defined.

End BuilderTheorems.

(* ===================================================================== *)
(** ** Facts about [str.format] *)
(* ===================================================================== *)

Module FormatFacts.
Import StrFormat Segments.

Lemma push_inr {A B E} c (r : E + (string * A * B)) s a b :
  push c r = inr (s, a, b) ->
  exists s', s = String c s' /\ r = inr (s', a, b).
Proof.
  destruct r as [e|[[s' a'] b']]; simpl; [done |].
  intros [= <- <- <-]. by exists s'.
Qed.

Lemma scan_literal_length s t c r :
  scan_literal s = (t, Some (c, r)) ->
  String.length s = (String.length t + 1 + String.length r)%nat.
Proof.
  revert t. induction s as [|x s IH]; intros t; simpl; [done |].
  destruct (is_brace x).
  - intros [= <- <- <-]. simpl. lia.
  - destruct (scan_literal s) as [t' r'] eqn:E.
    intros [= <- ->]. simpl. rewrite (IH t'); [lia | done].
Qed.

Lemma scan_field_name_length b s name c rest :
  scan_field_name b s = inr (name, c, rest) ->
  String.length s = (String.length name + 1 + String.length rest)%nat.
Proof.
  revert b name. induction s as [|x s IH]; intros b name; simpl; [done |].
  destruct b.
  { intros (n' & -> & H)%push_inr. simpl. by rewrite (IH _ _ H). }
  destruct (Ascii.eqb x "{"); [done |].
  destruct (Ascii.eqb x "[").
  { intros (n' & -> & H)%push_inr. simpl. by rewrite (IH _ _ H). }
  destruct (Ascii.eqb x "}" || Ascii.eqb x ":" || Ascii.eqb x "!").
  { intros [= <- <- <-]. simpl. lia. }
  intros (n' & -> & H)%push_inr. simpl. by rewrite (IH _ _ H).
Qed.

Lemma scan_format_spec_length d s spec u rest :
  scan_format_spec d s = inr (spec, u, rest) ->
  String.length s = (String.length spec + 1 + String.length rest)%nat.
Proof.
  revert d spec. induction s as [|x s IH]; intros d spec; simpl; [done |].
  destruct (Ascii.eqb x "{").
  { intros (n' & -> & H)%push_inr. simpl. by rewrite (IH _ _ H). }
  destruct (Ascii.eqb x "}").
  { destruct d as [|d].
    - intros [= <- <- <-]. simpl. lia.
    - intros (n' & -> & H)%push_inr. simpl. by rewrite (IH _ _ H). }
  intros (n' & -> & H)%push_inr. simpl. by rewrite (IH _ _ H).
Qed.

Lemma with_spec_length name conv s f rest :
  with_spec name conv s = inr (f, rest) ->
  (String.length rest < String.length s)%nat.
Proof.
  unfold with_spec.
  destruct (scan_format_spec 0 s) as [e|[[spec u] r]] eqn:E; [done |].
  intros [= <- <-]. apply scan_format_spec_length in E. lia.
Qed.

Lemma parse_field_length s f rest :
  parse_field s = inr (f, rest) ->
  (String.length rest < String.length s)%nat.
Proof.
  unfold parse_field.
  destruct (scan_field_name false s) as [e|[[name c] r]] eqn:E; [done |].
  apply scan_field_name_length in E.
  destruct (Ascii.eqb c "}"); [intros [= <- <-]; lia |].
  destruct (Ascii.eqb c "!").
  - destruct r as [|conv [|c2 r2]]; try done.
    destruct (Ascii.eqb c2 "}"); [intros [= <- <-]; simpl in *; lia |].
    destruct (Ascii.eqb c2 ":"); [| done].
    intros H%with_spec_length. simpl in *. lia.
  - intros H%with_spec_length. lia.
Qed.

Lemma next_length s lit f rest :
  MarkupIterator_next s = inr (MText lit f rest) ->
  (String.length rest < String.length s)%nat.
Proof.
  unfold MarkupIterator_next. destruct s as [|x s]; [done |].
  destruct (scan_literal (String x s)) as [t [[c [|c' r]]|]] eqn:E.
  - by destruct (Ascii.eqb c "}").
  - apply scan_literal_length in E.
    destruct (Ascii.eqb c "}" && negb (Ascii.eqb c' "}")); [done |].
    destruct (Ascii.eqb c c').
    + intros [= <- <- <-]. simpl in *. lia.
    + destruct (parse_field (String c' r)) as [e|[f' rest']] eqn:P; [done |].
      intros [= <- <- <-]. apply parse_field_length in P. simpl in *. lia.
  - intros [= <- <- <-]. simpl. lia.
Qed.

Lemma do_markup_enough n m s kwargs :
  (String.length s <= n)%nat -> (String.length s <= m)%nat ->
  do_markup n s kwargs = do_markup m s kwargs.
Proof.
  revert m s. induction n as [|n IH]; intros m s Hn Hm.
  - destruct s; [| simpl in Hn; lia]. by destruct m.
  - destruct m as [|m].
    + destruct s; [done | simpl in Hm; lia].
    + simpl. destruct (MarkupIterator_next s) as [e|[|lit f rest]] eqn:E; try done.
      apply next_length in E.
      rewrite (IH m rest) by lia. done.
Qed.

(** The defining equation of [format], free of fuel. *)
Lemma format_eq s kwargs :
  format s kwargs =
  match MarkupIterator_next s with
  | inl e => Raise e
  | inr MDone => Return EmptyString
  | inr (MText lit None rest) => prepend lit (format rest kwargs)
  | inr (MText lit (Some f) rest) =>
      match output_markup f kwargs with
      | Return t => prepend (lit +:+ t) (format rest kwargs)
      | other => other
      end
  end.
Proof.
  unfold format. destruct s as [|x s]; [done |].
  cbn [String.length do_markup].
  destruct (MarkupIterator_next (String x s)) as [e|[|lit f rest]] eqn:E; try done.
  apply next_length in E.
  rewrite (do_markup_enough (String.length s) (String.length rest)) by (simpl in *; lia).
  done.
Qed.

Lemma prepend_prepend a b o : prepend a (prepend b o) = prepend (a +:+ b) o.
Proof. destruct o; simpl; try done. by rewrite append_assoc. Qed.

Lemma format_empty kwargs : format EmptyString kwargs = Return EmptyString.
Proof. reflexivity. Qed.

(** A character that is not a brace is copied. *)
Lemma format_cons_plain c s kwargs :
  is_brace c = false ->
  format (String c s) kwargs = prepend (String c EmptyString) (format s kwargs).
Proof.
  intros Hc. rewrite (format_eq (String c s)), (format_eq s).
  unfold MarkupIterator_next. cbn [scan_literal]. rewrite Hc.
  destruct s as [|x s].
  { simpl. done. }
  destruct (scan_literal (String x s)) as [t [[b [|c' r]]|]] eqn:E.
  - by destruct (Ascii.eqb b "}").
  - destruct (Ascii.eqb b "}" && negb (Ascii.eqb c' "}")); [done |].
    destruct (Ascii.eqb b c').
    + by rewrite prepend_prepend.
    + destruct (parse_field (String c' r)) as [e|[f rest]]; [done |].
      destruct (output_markup f kwargs); try done.
      by rewrite prepend_prepend.
  - by rewrite prepend_prepend.
Qed.

Lemma format_plain_prefix text s kwargs :
  plain text = true ->
  format (text +:+ s) kwargs = prepend text (format s kwargs).
Proof.
  induction text as [|c text IH]; simpl.
  - intros _. rewrite append_nil. destruct (format s kwargs); reflexivity.
  - intros [Hc Ht]%andb_prop. apply negb_true_iff in Hc.
    rewrite append_cons, format_cons_plain by done.
    rewrite IH by done. by rewrite prepend_prepend.
Qed.

Lemma special_false c :
  special c = false ->
  Ascii.eqb c "{" = false /\ Ascii.eqb c "}" = false /\ Ascii.eqb c "." = false /\
  Ascii.eqb c "[" = false /\ Ascii.eqb c "!" = false /\ Ascii.eqb c ":" = false.
Proof.
  unfold special. intros H.
  repeat (apply orb_false_elim in H as [H ?]). by repeat split.
Qed.

Lemma scan_field_name_simple name rest :
  no_special name = true ->
  scan_field_name false (name +:+ String "}" rest) = inr (name, "}"%char, rest).
Proof.
  induction name as [|c name IH]; [done |].
  simpl. intros [Hc Hn]%andb_prop. apply negb_true_iff, special_false in Hc.
  destruct Hc as (H1 & H2 & H3 & H4 & H5 & H6).
  rewrite ?append_cons. cbn [scan_field_name].
  rewrite H1, H2, H4, H5, H6. simpl. by rewrite IH.
Qed.

Lemma field_name_split_simple name :
  no_special name = true -> field_name_split name = (name, EmptyString).
Proof.
  induction name as [|c name IH]; [done |].
  simpl. intros [Hc Hn]%andb_prop. apply negb_true_iff, special_false in Hc.
  destruct Hc as (H1 & H2 & H3 & H4 & H5 & H6).
  rewrite H3, H4. simpl. by rewrite IH.
Qed.

Lemma simple_name_parts c name :
  simple_name (String c name) = true ->
  is_digit c = false /\ no_special (String c name) = true /\
  is_ascii (String c name) = true.
Proof.
  unfold simple_name. intros [[Hd Hn]%andb_prop Ha]%andb_prop.
  by apply negb_true_iff in Hd.
Qed.

Lemma output_markup_simple name kwargs :
  simple_name name = true ->
  output_markup (mkField name None EmptyString) kwargs =
  match kwargs !! name with
  | None => Raise (KeyError name)
  | Some v =>
      match str v with
      | inr t => Return t
      | inl e => Raise e
      end
  end.
Proof.
  destruct name as [|c name]; [done |].
  intros (Hd & Hn & Ha)%simple_name_parts.
  unfold output_markup, get_field_object. cbn [field_name].
  rewrite (field_name_split_simple _ Hn), Ha. cbn [negb].
  cbn [get_integer get_integer_from]. rewrite Hd.
  by destruct (kwargs !! String c name).
Qed.

(** An opening brace that is not doubled starts a field. *)
Lemma next_open_field c r :
  Ascii.eqb c "{" = false ->
  MarkupIterator_next (String "{" (String c r)) =
  match parse_field (String c r) with
  | inl e => inl e
  | inr (f, rest) => inr (MText EmptyString (Some f) rest)
  end.
Proof.
  intros H. unfold MarkupIterator_next.
  assert (scan_literal (String "{" (String c r))
          = (EmptyString, Some ("{"%char, String c r))) as -> by reflexivity.
  change (Ascii.eqb "{" "}") with false. cbn [andb].
  by rewrite Ascii.eqb_sym, H.
Qed.

(** A simple placeholder is looked up and replaced. *)
Lemma format_placeholder name s kwargs :
  simple_name name = true ->
  format (String "{" (name +:+ String "}" s)) kwargs =
  match kwargs !! name with
  | None => Raise (KeyError name)
  | Some v =>
      match str v with
      | inr t => prepend t (format s kwargs)
      | inl e => Raise e
      end
  end.
Proof.
  intros Hsimple. rewrite format_eq.
  destruct name as [|c name]; [done |].
  pose proof Hsimple as (Hd & Hn & Ha)%simple_name_parts.
  pose proof Hn as Hn'. simpl in Hn'. apply andb_prop in Hn' as [Hc _].
  apply negb_true_iff, special_false in Hc.
  destruct Hc as (H1 & H2 & H3 & H4 & H5 & H6).
  rewrite append_cons, (next_open_field c _ H1).
  unfold parse_field. rewrite <- append_cons.
  rewrite (scan_field_name_simple _ s Hn). rewrite Ascii.eqb_refl.
  rewrite (output_markup_simple _ kwargs Hsimple).
  destruct (kwargs !! String c name) as [v|]; [| done].
  by destruct (str v).
Qed.

(** [format] on a template of plain text and simple placeholders. *)
Lemma format_unparse segs kwargs :
  forallb simple segs = true ->
  format (unparse segs) kwargs =
  match fill segs (fun k => kwargs !! k) with
  | inr s => Return s
  | inl e => Raise e
  end.
Proof.
  induction segs as [|[text|name] segs IH]; simpl; [done | |].
  - intros [Ht Hs]%andb_prop. rewrite format_plain_prefix, IH by done.
    by destruct (fill segs _).
  - intros [Hn Hs]%andb_prop. rewrite format_placeholder by done.
    destruct (kwargs !! name) as [v|]; [| done].
    destruct (str v); [done |]. rewrite IH by done.
    by destruct (fill segs _).
Qed.

End FormatFacts.

(* ===================================================================== *)
(** ** Facts about the template *)
(* ===================================================================== *)

Module TemplateFacts.
Import Re SpecWords Segments ReFacts FormatFacts StoreFacts PromptTemplate.

Lemma plain_no_open text : plain text = true -> contains "{" text = false.
Proof.
  induction text as [|c text IH]; [done |]. simpl.
  intros [Hc Ht]%andb_prop. apply negb_true_iff in Hc.
  unfold StrFormat.is_brace in Hc. apply orb_false_elim in Hc as [-> _]. auto.
Qed.

Lemma no_special_no_close name : no_special name = true -> contains "}" name = false.
Proof.
  induction name as [|c name IH]; [done |]. simpl.
  intros [Hc Hn]%andb_prop. apply negb_true_iff, special_false in Hc.
  destruct Hc as (_ & -> & _). auto.
Qed.

Lemma simple_name_shape name :
  simple_name name = true ->
  exists c rest, name = String c rest /\ contains "}" name = false.
Proof.
  destruct name as [|c rest]; [done |].
  intros (_ & Hn & _)%simple_name_parts. exists c, rest. split; [done |].
  by apply no_special_no_close.
Qed.

Lemma str_not_key v k : str v <> inl (KeyError k).
Proof.
  destruct v as [s|z]; simpl; [done |].
  by destruct (int_max_str_digits <? _)%nat.
Qed.

Lemma str_renders v : renders v = true -> str v = inr (stringified v).
Proof.
  unfold renders, str. destruct v as [s|z]; [done |].
  by destruct (int_max_str_digits <? _)%nat.
Qed.

Lemma well_valued_var name segs eff :
  well_valued (Var name :: segs) eff = true ->
  (forall v, eff name = Some v -> renders v = true) /\
  well_valued segs eff = true.
Proof.
  unfold well_valued. simpl. intros [H Hs]%andb_prop. split; [| done].
  intros v E. by rewrite E in H.
Qed.

Lemma well_valued_spec segs eff :
  well_valued segs eff = true <->
  forall x v, x ∈ names segs -> eff x = Some v -> renders v = true.
Proof.
  unfold well_valued. rewrite forallb_forall. split.
  - intros H x v Hx E. apply list_elem_of_In, H in Hx. by rewrite E in Hx.
  - intros H x Hx. destruct (eff x) as [v|] eqn:E; [| done].
    eapply H; [| done]. by apply list_elem_of_In.
Qed.

Lemma well_valued_ext segs (eff eff' : string -> option value) :
  (forall k, eff k = eff' k) -> well_valued segs eff = well_valued segs eff'.
Proof.
  intros H. unfold well_valued.
  induction (names segs) as [|x xs IH]; simpl; [done |]. by rewrite H, IH.
Qed.

Lemma names_simple segs k :
  forallb simple segs = true -> k ∈ names segs -> simple_name k = true.
Proof.
  induction segs as [|[text|name] segs IH]; simpl.
  - intros _ Hk. by apply elem_of_nil in Hk.
  - intros [_ Hs]%andb_prop. by apply IH.
  - intros [Hn Hs]%andb_prop [->|Hk]%elem_of_cons; [done |]. by apply IH.
Qed.

(** The scan of a simple template finds its placeholder names. *)
Lemma findall_unparse segs :
  forallb simple segs = true -> findall (unparse segs) = names segs.
Proof.
  induction segs as [|[text|name] segs IH]; simpl; [done | |].
  - intros [Ht Hs]%andb_prop.
    rewrite findall_literal by (by apply plain_no_open). auto.
  - intros [Hn Hs]%andb_prop.
    destruct (simple_name_shape _ Hn) as (c & rest & -> & Hc).
    rewrite findall_placeholder by done. by rewrite IH.
Qed.






Lemma fill_missing segs eff k :
  fill segs eff = inl (KeyError k) -> k ∈ names segs /\ eff k = None.
Proof.
  induction segs as [|[text|name] segs IH]; simpl; [done | |].
  - destruct (fill segs eff); [| done]. intros [= ->]. auto.
  - destruct (eff name) as [v|] eqn:E.
    + destruct (str v) as [e|t] eqn:Ev.
      * intros [= ->]. by apply str_not_key in Ev.
      * destruct (fill segs eff); [| done]. intros [= ->].
        destruct IH as [? ?]; [done |]. split; [by right | done].
    + intros [= ->]. split; [by left | done].
Qed.

Lemma fill_covered segs eff s :
  fill segs eff = inr s -> forall x, x ∈ names segs -> is_Some (eff x).
Proof.
  revert s. induction segs as [|[text|name] segs IH]; intros s; simpl.
  - intros _ x Hx. by apply elem_of_nil in Hx.
  - destruct (fill segs eff); [done |]. intros _. by eapply IH.
  - destruct (eff name) as [v|] eqn:E; [| done].
    destruct (str v); [done |].
    destruct (fill segs eff); [done |]. intros _ x [->|Hx]%elem_of_cons.
    + by exists v.
    + by eapply IH.
Qed.

(** With values that [str] accepts, the only failure is a missing name. *)
Lemma fill_failure segs eff e :
  well_valued segs eff = true -> fill segs eff = inl e -> exists k, e = KeyError k.
Proof.
  induction segs as [|[text|name] segs IH]; simpl; [done | |].
  - intros Hv. destruct (fill segs eff) eqn:E; [| done].
    intros [= ->]. by apply IH.
  - intros [Hv Hvs]%well_valued_var.
    destruct (eff name) as [v|] eqn:E.
    + rewrite (str_renders v) by (by apply Hv).
      destruct (fill segs eff); [| done]. intros [= ->]. by apply IH.
    + intros [= <-]. by eexists.
Qed.

Lemma effective_union (d kw : gmap string value) k :
  (kw ∪ d) !! k = effective d kw k.
Proof.
  unfold effective. rewrite lookup_union.
  by destruct (kw !! k), (d !! k).
Qed.

Lemma fill_ext segs (f g : string -> option value) :
  (forall k, f k = g k) -> fill segs f = fill segs g.
Proof.
  intros H. induction segs as [|[text|name] segs IH]; simpl; [done | |].
  - by rewrite IH.
  - by rewrite H, IH.
Qed.

Lemma simple_name_repr name :
  simple_name name = true -> exists quoted, repr name = Some quoted.
Proof.
  destruct name as [|c name]; [done |].
  intros (_ & _ & Ha)%simple_name_parts. unfold repr. rewrite Ha. by eexists.
Qed.

Lemma template_fields_ok (σ : store) self t ld :
  σ !! self = Some (OTemplate t ld) -> fields self σ = (Return (t, ld), σ).
Proof. intros H. unfold fields. by rewrite H. Qed.

Lemma merge_run (σ : store) self t ld d kw :
  σ !! self = Some (OTemplate t ld) -> σ !! ld = Some (ODict d) ->
  merge self kw σ = (Return (kw ∪ d), <[fresh (dom σ) := ODict (kw ∪ d)]> σ).
Proof.
  intros Hs Hd. unfold merge.
  rewrite (bind_Return _ _ _ _ _ (template_fields_ok _ _ _ _ Hs)). simpl.
  rewrite (bind_Return _ _ _ _ _ (get_dict_ok _ _ _ Hd)).
  rewrite (bind_Return _ _ _ _ _ (new_eq _ _)).
  apply get_dict_ok, lookup_insert_eq.
Qed.

(** The objects of a store survive an allocation. *)
Lemma after_alloc (σ : store) l o o' :
  σ !! l = Some o -> (<[fresh (dom σ) := o']> σ) !! l = Some o.
Proof. intros H. eapply lookup_weaken; [exact H | apply insert_fresh_subseteq]. Qed.

(** A call without a keyword named [self] runs the body. *)
Lemma format_run (σ : store) self t ld d kw :
  σ !! self = Some (OTemplate t ld) -> σ !! ld = Some (ODict d) ->
  kw !! "self" = None ->
  format self kw σ =
  (match StrFormat.format t (kw ∪ d) with
   | Return s => Return s
   | Raise (KeyError key) => missing_variable key
   | Raise e => Raise e
   | Stuck => Stuck
   | Unmodelled => Unmodelled
   end, <[fresh (dom σ) := ODict (kw ∪ d)]> σ).
Proof.
  intros Hs Hd Hself. unfold format. rewrite Hself.
  rewrite (bind_Return _ _ _ _ _ (merge_run _ _ _ _ _ kw Hs Hd)).
  rewrite (bind_Return _ _ _ _ _ (template_fields_ok _ _ _ _ (after_alloc _ _ _ _ Hs))).
  simpl. by destruct (StrFormat.format t (kw ∪ d)) as [s|[]| |].
Qed.

(** A call with a keyword named [self] is refused and changes nothing. *)
Lemma format_refused (σ : store) self kw v :
  kw !! "self" = Some v ->
  format self kw σ = (Raise (multiple_values "format" "self"), σ).
Proof. intros H. unfold format. by rewrite H. Qed.

Lemma validate_refused (σ : store) self kw v :
  kw !! "self" = Some v ->
  validate self kw σ = (Raise (multiple_values "validate" "self"), σ).
Proof. intros H. unfold validate. by rewrite H. Qed.

Lemma get_variables_run (σ : store) self t ld :
  σ !! self = Some (OTemplate t ld) ->
  get_variables self σ = (Return (findall t), σ).
Proof.
  intros Hs. unfold get_variables.
  by rewrite (bind_Return _ _ _ _ _ (template_fields_ok _ _ _ _ Hs)).
Qed.

Lemma validate_run (σ : store) self t ld d kw :
  σ !! self = Some (OTemplate t ld) -> σ !! ld = Some (ODict d) ->
  kw !! "self" = None ->
  validate self kw σ =
  (Return (bool_decide ((list_to_set (findall t) : gset string) ⊆ dom (kw ∪ d))),
   <[fresh (dom σ) := ODict (kw ∪ d)]> σ).
Proof.
  intros Hs Hd Hself. unfold validate. rewrite Hself.
  rewrite (bind_Return _ _ _ _ _ (merge_run _ _ _ _ _ kw Hs Hd)).
  by rewrite (bind_Return _ _ _ _ _
                (get_variables_run _ _ _ _ (after_alloc _ _ _ _ Hs))).
Qed.

Lemma init_run (σ0 : store) t d :
  d !! "self" = None -> d !! "template" = None ->
  exists self ld σ,
    __init__ t d σ0 = (Return self, σ) /\
    σ !! self = Some (OTemplate t ld) /\ σ !! ld = Some (ODict d).
Proof.
  intros H1 H2.
  set (ld := fresh (dom σ0)).
  set (σ1 := <[ld := ODict d]> σ0).
  exists (fresh (dom σ1)), ld, (<[fresh (dom σ1) := OTemplate t ld]> σ1).
  split; [unfold __init__; by rewrite H1, H2 |].
  split; [by rewrite lookup_insert_eq |].
  apply after_alloc. apply lookup_insert_eq.
Qed.

(** Both methods only add objects, whatever they are given. *)
Lemma format_grows (σ : store) self t ld d kw :
  σ !! self = Some (OTemplate t ld) -> σ !! ld = Some (ODict d) ->
  σ ⊆ (format self kw σ).2.
Proof.
  intros Hs Hd. destruct (kw !! "self") as [v|] eqn:E.
  - by rewrite (format_refused _ _ _ _ E).
  - rewrite (format_run _ _ _ _ _ kw Hs Hd E). apply insert_fresh_subseteq.
Qed.

Lemma validate_grows (σ : store) self t ld d kw :
  σ !! self = Some (OTemplate t ld) -> σ !! ld = Some (ODict d) ->
  σ ⊆ (validate self kw σ).2.
Proof.
  intros Hs Hd. destruct (kw !! "self") as [v|] eqn:E.
  - by rewrite (validate_refused _ _ _ _ E).
  - rewrite (validate_run _ _ _ _ _ kw Hs Hd E). apply insert_fresh_subseteq.
Qed.

(** What both methods return depends on the template string, the
    defaults and the keyword arguments, not on the rest of the store. *)
Lemma format_same (σ σ' : store) self self' t ld ld' d kw :
  σ !! self = Some (OTemplate t ld) -> σ !! ld = Some (ODict d) ->
  σ' !! self' = Some (OTemplate t ld') -> σ' !! ld' = Some (ODict d) ->
  (format self kw σ).1 = (format self' kw σ').1.
Proof.
  intros Hs Hd Hs' Hd'. destruct (kw !! "self") as [v|] eqn:E.
  - by rewrite !(format_refused _ _ _ _ E).
  - by rewrite (format_run _ _ _ _ _ kw Hs Hd E), (format_run _ _ _ _ _ kw Hs' Hd' E).
Qed.

Lemma validate_same (σ σ' : store) self self' t ld ld' d kw :
  σ !! self = Some (OTemplate t ld) -> σ !! ld = Some (ODict d) ->
  σ' !! self' = Some (OTemplate t ld') -> σ' !! ld' = Some (ODict d) ->
  (validate self kw σ).1 = (validate self' kw σ').1.
Proof.
  intros Hs Hd Hs' Hd'. destruct (kw !! "self") as [v|] eqn:E.
  - by rewrite !(validate_refused _ _ _ _ E).
  - by rewrite (validate_run _ _ _ _ _ kw Hs Hd E),
      (validate_run _ _ _ _ _ kw Hs' Hd' E).
Qed.

End TemplateFacts.

(* ===================================================================== *)
(** ** Theorems about [PromptTemplate] *)
(* ===================================================================== *)

Module TemplateTheorems.
Import Re SpecWords Segments ReFacts FormatFacts StoreFacts TemplateFacts.
Import PromptTemplate TemplateClient.







(** C4 (as amended). [get_variables] returns, in order of appearance, the
    text enclosed by each non-overlapping span from an opening brace to the
    next closing brace, taken as it is, for the spans whose text is not
    empty; an opening brace directly followed by a closing brace gives no
    identifier. The store is not changed. *)
Theorem get_variables_nonempty_spans (σ : store) self t ld :
  σ !! self = Some (OTemplate t ld) ->
  get_variables self σ
  = (Return (filter (fun id => nonempty id = true) (spans t)), σ).
Proof.
  intros Hs. rewrite (get_variables_run _ _ _ _ Hs). by rewrite findall_spans.
Qed.

Lemma get_variables_nonempty_spans_witness :
  greeting.2 !! 1%nat = Some (OTemplate "Hello {name}" 0%nat) /\
  get_variables 1%nat greeting.2
  = (Return (filter (fun id => nonempty id = true) (spans "Hello {name}")), greeting.2).
Proof.
  assert (H : greeting.2 !! 1%nat = Some (OTemplate "Hello {name}" 0%nat))
    by (vm_compute; reflexivity).
  split; [exact H |].
  exact (get_variables_nonempty_spans greeting.2 1%nat "Hello {name}" 0%nat H).
Defined.

(** C4 (as stated) fails on an empty pair of braces: the span from the
    opening brace to the next closing brace encloses the empty text, which
    [get_variables] does not list. *)
Lemma get_variables_skips_empty_span :
  (scan_empty_braces ∅).1 = Return [] /\ spans "{}" = [EmptyString].
Proof. split; vm_compute; reflexivity. Qed.

(** C5 (as amended). With overrides that have no key [self], [validate]
    returns a boolean: true exactly when every identifier of
    [get_variables] is a key of the defaults overlaid with the overrides,
    false otherwise. It raises nothing, substitutes nothing and leaves
    every object of the store as it was. *)
Theorem validate_covers (σ : store) self t ld d kw :
  σ !! self = Some (OTemplate t ld) ->
  σ !! ld = Some (ODict d) ->
  kw !! "self" = None ->
  exists b σ' ids,
    validate self kw σ = (Return b, σ') /\
    get_variables self σ = (Return ids, σ) /\
    (b = true <-> forall x, x ∈ ids -> is_Some (effective d kw x)) /\
    (b = false <-> exists x, x ∈ ids /\ effective d kw x = None) /\
    (forall l o, σ !! l = Some o -> σ' !! l = Some o).
Proof.
  intros Hs Hd Hself.
  eexists _, _, (findall t).
  split; [by apply (validate_run σ self t ld d) |].
  split; [by apply (get_variables_run σ self t ld) |].
  assert (Hiff : (list_to_set (findall t) : gset string) ⊆ dom (kw ∪ d) <->
                 forall x, x ∈ findall t -> is_Some (effective d kw x)).
  { rewrite elem_of_subseteq. split; intros H x Hx.
    - rewrite <- effective_union. apply elem_of_dom, H.
      by apply elem_of_list_to_set.
    - apply elem_of_dom. rewrite effective_union. apply H.
      by apply elem_of_list_to_set in Hx. }
  split; [| split].
  - by rewrite bool_decide_eq_true.
  - rewrite bool_decide_eq_false, Hiff. split.
    + intros Hnot.
      destruct (decide (Forall (fun x => is_Some (effective d kw x)) (findall t)))
        as [Hall|Hex].
      * destruct Hnot. intros x Hx. by eapply Forall_forall in Hall.
      * apply not_Forall_Exists, Exists_exists in Hex; [| apply _].
        destruct Hex as (x & Hx & Hn). exists x. split; [done |].
        simpl in Hn. by apply eq_None_not_Some.
    + intros (x & Hx & Hn) Hall. destruct (Hall x Hx) as [v Hv]. congruence.
  - intros l o Hl. by apply after_alloc.
Qed.

Lemma validate_covers_witness :
  greeting.2 !! 1%nat = Some (OTemplate "Hello {name}" 0%nat) /\
  greeting.2 !! 0%nat = Some (ODict {[ "name" := VStr "World" ]}) /\
  (∅ : gmap string value) !! "self" = None /\
  exists b σ' ids,
    validate 1%nat ∅ greeting.2 = (Return b, σ') /\
    get_variables 1%nat greeting.2 = (Return ids, greeting.2) /\
    (b = true <->
     forall x, x ∈ ids -> is_Some (effective {[ "name" := VStr "World" ]} ∅ x)) /\
    (b = false <->
     exists x, x ∈ ids /\ effective {[ "name" := VStr "World" ]} ∅ x = None) /\
    (forall l o, greeting.2 !! l = Some o -> σ' !! l = Some o).
Proof.
  assert (H1 : greeting.2 !! 1%nat = Some (OTemplate "Hello {name}" 0%nat))
    by (vm_compute; reflexivity).
  assert (H2 : greeting.2 !! 0%nat = Some (ODict {[ "name" := VStr "World" ]}))
    by (vm_compute; reflexivity).
  assert (H3 : (∅ : gmap string value) !! "self" = None)
    by (vm_compute; reflexivity).
  split; [exact H1 |]. split; [exact H2 |]. split; [exact H3 |].
  exact (validate_covers greeting.2 1%nat "Hello {name}" 0%nat
           {[ "name" := VStr "World" ]} ∅ H1 H2 H3).
Defined.

(** C5 (as stated) fails on an override named [self]: the keyword collides
    with the receiver of the method, and the call raises a type error
    instead of returning a boolean, although every identifier of the
    template has a value. *)
Lemma validate_raises_on_override_self :
  (validate_override_self ∅).1
  = Raise (TypeError "PromptTemplate.validate() got multiple values for argument 'self'") /\
  (scan_override_self ∅).1 = Return ["name"] /\
  effective {[ "name" := VStr "World" ]} {[ "self" := VStr "me" ]} "name"
  = Some (VStr "World").
Proof. repeat split; vm_compute; reflexivity. Qed.

(** C6. [format] and [validate], whatever they are given and whether they
    succeed or fail, leave the template object and its default mapping as
    they were; what a later call returns does not depend on the overrides
    of an earlier one. *)
Theorem defaults_never_mutated (σ : store) self t ld d kw :
  σ !! self = Some (OTemplate t ld) ->
  σ !! ld = Some (ODict d) ->
  (format self kw σ).2 !! self = Some (OTemplate t ld) /\
  (format self kw σ).2 !! ld = Some (ODict d) /\
  (validate self kw σ).2 !! self = Some (OTemplate t ld) /\
  (validate self kw σ).2 !! ld = Some (ODict d) /\
  forall kw',
    (format self kw' (format self kw σ).2).1 = (format self kw' σ).1 /\
    (format self kw' (validate self kw σ).2).1 = (format self kw' σ).1 /\
    (validate self kw' (format self kw σ).2).1 = (validate self kw' σ).1 /\
    (validate self kw' (validate self kw σ).2).1 = (validate self kw' σ).1.
Proof.
  intros Hs Hd.
  pose proof (lookup_weaken _ _ _ _ Hs (format_grows _ _ _ _ _ kw Hs Hd)) as Hfs.
  pose proof (lookup_weaken _ _ _ _ Hd (format_grows _ _ _ _ _ kw Hs Hd)) as Hfd.
  pose proof (lookup_weaken _ _ _ _ Hs (validate_grows _ _ _ _ _ kw Hs Hd)) as Hvs.
  pose proof (lookup_weaken _ _ _ _ Hd (validate_grows _ _ _ _ _ kw Hs Hd)) as Hvd.
  repeat (split; [done |]).
  intros kw'. repeat split.
  - exact (format_same _ _ _ _ _ _ _ _ kw' Hfs Hfd Hs Hd).
  - exact (format_same _ _ _ _ _ _ _ _ kw' Hvs Hvd Hs Hd).
  - exact (validate_same _ _ _ _ _ _ _ _ kw' Hfs Hfd Hs Hd).
  - exact (validate_same _ _ _ _ _ _ _ _ kw' Hvs Hvd Hs Hd).
Qed.

Lemma defaults_never_mutated_witness :
  greeting.2 !! 1%nat = Some (OTemplate "Hello {name}" 0%nat) /\
  greeting.2 !! 0%nat = Some (ODict {[ "name" := VStr "World" ]}) /\
  (format 1%nat {[ "name" := VStr "Alice" ]} greeting.2).2 !! 0%nat
    = Some (ODict {[ "name" := VStr "World" ]}) /\
  (format 1%nat ∅ (format 1%nat {[ "name" := VStr "Alice" ]} greeting.2).2).1
    = (format 1%nat ∅ greeting.2).1.
Proof.
  assert (H1 : greeting.2 !! 1%nat = Some (OTemplate "Hello {name}" 0%nat))
    by (vm_compute; reflexivity).
  assert (H2 : greeting.2 !! 0%nat = Some (ODict {[ "name" := VStr "World" ]}))
    by (vm_compute; reflexivity).
  split; [exact H1 |]. split; [exact H2 |].
  destruct (defaults_never_mutated greeting.2 1%nat "Hello {name}" 0%nat
              {[ "name" := VStr "World" ]} {[ "name" := VStr "Alice" ]} H1 H2)
    as (_ & Hd & _ & _ & Hlater).
  split; [exact Hd |]. exact (proj1 (Hlater ∅)).
Defined.

(** C10. Every identifier [get_variables] returns is a non-empty string
    without closing brace; an empty pair of braces after brace-free text
    adds no identifier. *)
Theorem get_variables_identifiers (σ : store) self t ld :
  σ !! self = Some (OTemplate t ld) ->
  exists ids,
    get_variables self σ = (Return ids, σ) /\
    Forall (fun id => id <> EmptyString /\ contains "}" id = false) ids /\
    forall a b, contains "{" a = false -> t = a +:+ String "{" (String "}" b) ->
                ids = findall b.
Proof.
  intros Hs. exists (findall t).
  split; [by apply (get_variables_run σ self t ld) |]. split.
  - eapply Forall_impl; [apply findall_identifiers |].
    intros id [Hne Hc]. split; [| done]. by destruct id.
  - intros a b Ha ->. by rewrite findall_literal, findall_empty_braces.
Qed.

Lemma get_variables_identifiers_witness :
  greeting.2 !! 1%nat = Some (OTemplate "Hello {name}" 0%nat) /\
  exists ids,
    get_variables 1%nat greeting.2 = (Return ids, greeting.2) /\
    Forall (fun id => id <> EmptyString /\ contains "}" id = false) ids /\
    forall a b, contains "{" a = false ->
                "Hello {name}" = a +:+ String "{" (String "}" b) ->
                ids = findall b.
Proof.
  assert (H : greeting.2 !! 1%nat = Some (OTemplate "Hello {name}" 0%nat))
    by (vm_compute; reflexivity).
  split; [exact H |].
  exact (get_variables_identifiers greeting.2 1%nat "Hello {name}" 0%nat H).
Defined.

End TemplateTheorems.

(* ===================================================================== *)
(** ** The test suite, replayed on the model *)
(* ===================================================================== *)

Module ScenarioFacts.
Import Scenarios.

Example template_format_value :
  (template_format ∅).1 = Return "Hello Alice, you are 30 years old.".
Proof. vm_compute; reflexivity. Qed.

Example template_missing_value :
  (template_missing ∅).1
  = Raise (ValueError "Missing required template variable: 'name'").
Proof. vm_compute; reflexivity. Qed.

Example template_variables_value :
  (template_variables ∅).1 = Return ["name"; "score"].
Proof. vm_compute; reflexivity. Qed.

Example template_validate_value :
  (template_validate ∅).1 = Return (true, false, true).
Proof. vm_compute; reflexivity. Qed.

Example builder_clear_then_add_value :
  (builder_clear_then_add ∅).1 = Return (2%nat, 0%nat, 1%nat).
Proof. vm_compute; reflexivity. Qed.

Example builder_string_value :
  (builder_string ∅).1
  = Return (PromptBuilder.BString
              ("SYSTEM: System message" +:+ Client.blank_line
               +:+ "USER: User message")).
Proof. vm_compute; reflexivity. Qed.

End ScenarioFacts.

(* ===================================================================== *)
(** ** More facts about the builder *)
(* ===================================================================== *)

Module BuilderFrame.
Import PromptBuilder Client Views StoreFacts BuilderFacts.

Lemma kept_except_trans k (σ1 σ2 σ3 : store) :
  kept_except k σ1 σ2 -> kept_except k σ2 σ3 -> kept_except k σ1 σ3.
Proof. intros H12 H23 l o Hl Ho. by apply H23, H12. Qed.

Lemma kept_except_refl k (σ : store) : kept_except k σ σ.
Proof. by intros l o _ H. Qed.

Lemma contents_kept k (σ σ' : store) l msgs :
  kept_except k σ σ' -> l <> k ->
  (forall m, σ !! k <> Some (OMessage m)) ->
  contents σ l = Some msgs -> contents σ' l = Some msgs.
Proof.
  intros Hk Hl Hnot (xs & Hxs & H)%contents_Some.
  apply contents_Some. exists xs. split; [by apply Hk |].
  eapply Forall2_impl; [exact H |]. intros x m Hx. simpl in *.
  apply Hk; [| done]. intros ->. by eapply Hnot.
Qed.

Lemma held_context_Some (σ : store) self ctx :
  held_context σ self = Some ctx <->
  exists lm lc, σ !! self = Some (OBuilder lm lc) /\ σ !! lc = Some (ODict ctx).
Proof.
  unfold held_context. split.
  - destruct (σ !! self) as [[| | | |lm lc|]|]; try done.
    destruct (σ !! lc) as [[| |d| | |]|] eqn:E; try done.
    intros [= ->]. by exists lm, lc.
  - intros (lm & lc & -> & ->). done.
Qed.

Lemma held_context_weaken (σ σ' : store) self ctx :
  σ ⊆ σ' -> held_context σ self = Some ctx -> held_context σ' self = Some ctx.
Proof.
  intros Hsub (lm & lc & Hs & Hc)%held_context_Some.
  apply held_context_Some. exists lm, lc.
  split; by eapply lookup_weaken.
Qed.

Lemma held_context_kept (σ σ' : store) self lm lc ctx :
  σ !! self = Some (OBuilder lm lc) -> self <> lm -> lc <> lm ->
  kept_except lm σ σ' ->
  held_context σ self = Some ctx -> held_context σ' self = Some ctx.
Proof.
  intros Hs H1 H2 Hk (lm' & lc' & Hs' & Hc)%held_context_Some.
  rewrite Hs in Hs'. injection Hs' as <- <-.
  apply held_context_Some. exists lm, lc. split; by apply Hk.
Qed.

(** [add_message] writes the builder's list and a new record only. *)
Lemma add_message_frame (σ : store) self lm lc msgs r c :
  σ !! self = Some (OBuilder lm lc) ->
  held_messages σ self = Some msgs ->
  exists σ', add_message self r c σ = (Return self, σ') /\
             held_messages σ' self = Some (msgs ++ [mkMessage r c]) /\
             kept_except lm σ σ'.
Proof.
  intros Hs (lm' & lc' & xs & Hs' & Hl & H)%held_messages_Some.
  rewrite Hs in Hs'. injection Hs' as <- <-.
  set (m := fresh (dom σ)).
  assert (Hm : σ !! m = None) by apply fresh_unused.
  assert (m <> self) by (intros E; rewrite E in Hm; congruence).
  assert (m <> lm) by (intros E; rewrite E in Hm; congruence).
  assert (self <> lm) by (intros E; rewrite E in Hs; congruence).
  exists (<[lm := OList (xs ++ [m])]> (<[m := OMessage (mkMessage r c)]> σ)).
  split; [| split].
  - unfold add_message.
    rewrite (bind_Return _ _ _ _ _ (builder_fields_ok _ _ _ _ Hs)).
    rewrite (bind_Return _ _ _ _ _ (new_eq _ _)). fold m.
    unfold list_append. simpl.
    assert (Hl' : (<[m := OMessage (mkMessage r c)]> σ) !! lm = Some (OList xs))
      by (by rewrite lookup_insert_ne).
    unfold mbind at 1, M_bind, bind.
    rewrite (bind_Return _ _ _ _ _ (get_list_ok _ _ _ Hl')). done.
  - apply held_messages_Some. exists lm, lc, (xs ++ [m]).
    split; [by rewrite !lookup_insert_ne |].
    split; [by rewrite lookup_insert_eq |].
    apply Forall2_app.
    + eapply Forall2_impl; [exact H |]. intros x msg Hx. simpl in Hx.
      rewrite !lookup_insert_ne; [done | ..]; intros E; rewrite E in *; congruence.
    + constructor; [| constructor].
      rewrite lookup_insert_ne by done. by rewrite lookup_insert_eq.
  - intros l o Hne Ho. rewrite lookup_insert_ne by done.
    rewrite lookup_insert_ne; [done |]. intros E. rewrite <- E in Ho. congruence.
Qed.

Lemma perform_all_frame (σ : store) self lm lc msgs cs :
  σ !! self = Some (OBuilder lm lc) ->
  held_messages σ self = Some msgs ->
  exists σ', perform_all self cs σ = (Return self, σ') /\
             held_messages σ' self = Some (msgs ++ map message_of cs) /\
             kept_except lm σ σ'.
Proof.
  revert σ msgs. induction cs as [|c cs IH]; intros σ msgs Hs H; simpl.
  - exists σ. rewrite app_nil_r. split; [done |]. split; [done |].
    apply kept_except_refl.
  - rewrite perform_add_message.
    destruct (add_message_frame σ self lm lc msgs (role (message_of c))
                (content (message_of c)) Hs H) as (σ1 & Hrun & H1 & Hk1).
    assert (self <> lm).
    { apply held_messages_Some in H as (lm' & lc' & xs & Hs' & Hl & _).
      intros E. rewrite E in Hs. congruence. }
    destruct (IH σ1 _ (Hk1 _ _ ltac:(done) Hs) H1) as (σ2 & Hrun2 & H2 & Hk2).
    exists σ2. rewrite (bind_Return _ _ _ _ _ Hrun). split; [done |].
    split; [| by eapply kept_except_trans].
    rewrite H2. rewrite <- app_assoc. by destruct (message_of c).
Qed.

(** The builder's list is a list object, and neither the builder itself
    nor its context. *)
Lemma held_messages_list (σ : store) self lm lc msgs :
  σ !! self = Some (OBuilder lm lc) ->
  held_messages σ self = Some msgs ->
  exists xs, σ !! lm = Some (OList xs) /\ self <> lm.
Proof.
  intros Hs (lm' & lc' & xs & Hs' & Hl & _)%held_messages_Some.
  rewrite Hs in Hs'. injection Hs' as <- <-.
  exists xs. split; [done |]. intros E. rewrite E in Hs. congruence.
Qed.

(** [build] only adds objects. *)
Lemma build_grows {T : Text} (σ : store) self format msgs :
  held_messages σ self = Some msgs -> σ ⊆ (build self format σ).2.
Proof.
  intros Hheld. unfold build.
  destruct (String.eqb format "messages") eqn:E1.
  { destruct (build_messages_held σ self msgs Hheld) as (xs & Hb & _).
    unfold build in Hb. simpl in Hb. rewrite Hb. apply insert_fresh_subseteq. }
  destruct (String.eqb format "string") eqn:E2.
  { by rewrite (bind_Return _ _ _ _ _ (build_string_held _ _ _ Hheld)). }
  destruct (String.eqb format "chat") eqn:E3; [| done].
  apply held_messages_Some in Hheld as (lm & lc & xs & Hs & Hl & H).
  destruct (list_copy_held σ self lm lc xs msgs Hs Hl H) as [Hc _].
  unfold _build_chat_format.
  erewrite bind_Return.
  2:{ rewrite (bind_Return _ _ _ _ _ (builder_fields_ok _ _ _ _ Hs)).
      rewrite (bind_Return _ _ _ _ _ Hc). apply new_eq. }
  cbn [snd ret]. unfold ret. cbn [snd].
  etrans; [apply insert_fresh_subseteq |]. apply insert_fresh_subseteq.
Qed.

Lemma join_snoc sep ps p :
  join sep (ps ++ [p]) =
  match ps with
  | [] => p
  | _ => join sep ps +:+ sep +:+ p
  end.
Proof.
  induction ps as [|a [|b ps] IH]; [done | done |].
  change (join sep ((a :: b :: ps) ++ [p]))
    with (a +:+ sep +:+ join sep ((b :: ps) ++ [p])).
  rewrite IH.
  change (join sep (a :: b :: ps)) with (a +:+ sep +:+ join sep (b :: ps)).
  by rewrite !append_assoc.
Qed.

(** A builder keeps its messages when a list other than its own is
    overwritten. *)
Lemma held_messages_kept k (σ σ' : store) self msgs :
  held_messages σ self = Some msgs ->
  kept_except k σ σ' ->
  (forall o, σ !! k = Some o -> exists items, o = OList items) ->
  (forall lm lc, σ !! self = Some (OBuilder lm lc) -> lm <> k) ->
  held_messages σ' self = Some msgs.
Proof.
  intros (lm & lc & xs & Hs & Hl & H)%held_messages_Some Hk Hlist Hne.
  assert (lm <> k) by (by eapply Hne).
  assert (self <> k).
  { intros ->. destruct (Hlist _ Hs) as [items ?]. done. }
  apply held_messages_Some. exists lm, lc, xs.
  split; [by apply Hk |]. split; [by apply Hk |].
  eapply Forall2_impl; [exact H |]. intros x m Hx. simpl in *.
  apply Hk; [| done]. intros ->. destruct (Hlist _ Hx) as [items ?]. done.
Qed.

(** The chat record and the store [_build_chat_format] leaves. *)
Lemma build_chat_run {T : Text} (σ : store) self msgs :
  held_messages σ self = Some msgs ->
  exists xs,
    build self "chat" σ
    = (Return (BChat (fresh (dom (<[fresh (dom σ) := OList xs]> σ)))),
       <[fresh (dom (<[fresh (dom σ) := OList xs]> σ)) := OChat (fresh (dom σ))]>
         (<[fresh (dom σ) := OList xs]> σ)) /\
    contents (<[fresh (dom σ) := OList xs]> σ) (fresh (dom σ)) = Some msgs.
Proof.
  intros (lm & lc & xs & Hs & Hl & H)%held_messages_Some.
  destruct (list_copy_held σ self lm lc xs msgs Hs Hl H) as [Hc Hr].
  exists xs. split; [| done].
  unfold build. simpl. unfold _build_chat_format.
  erewrite bind_Return; [done |].
  rewrite (bind_Return _ _ _ _ _ (builder_fields_ok _ _ _ _ Hs)).
  rewrite (bind_Return _ _ _ _ _ Hc). apply new_eq.
Qed.

(** Overwriting a list that is not the builder's own. *)
Lemma overwrite_other_list (σ : store) self msgs l xs items :
  held_messages σ self = Some msgs ->
  σ !! l = Some (OList xs) ->
  (forall lm lc, σ !! self = Some (OBuilder lm lc) -> lm <> l) ->
  mutate l (SetItems items) σ = (Return tt, <[l := OList items]> σ) /\
  held_messages (<[l := OList items]> σ) self = Some msgs /\
  kept_except l σ (<[l := OList items]> σ).
Proof.
  intros Hheld Hl Hne.
  assert (Hk : kept_except l σ (<[l := OList items]> σ)).
  { intros l' o Hl' Ho. by rewrite lookup_insert_ne. }
  split; [| split; [| done]].
  - unfold mutate. by rewrite (bind_Return _ _ _ _ _ (get_list_ok _ _ _ Hl)).
  - eapply (held_messages_kept l); [done | done | | done].
    intros o Ho. rewrite Hl in Ho. injection Ho as <-. by exists xs.
Qed.

(** [clear] writes the builder object and new containers only. *)
Lemma clear_kept (σ : store) self lm lc :
  σ !! self = Some (OBuilder lm lc) -> kept_except self σ (clear self σ).2.
Proof.
  intros Hs. unfold clear.
  rewrite (bind_Return _ _ _ _ _ (builder_fields_ok _ _ _ _ Hs)).
  rewrite !(bind_Return _ _ _ _ _ (new_eq _ _)).
  unfold mbind, M_bind, bind, put, ret. cbn [snd].
  intros l o Hl Ho. rewrite lookup_insert_ne by done.
  eapply lookup_weaken; [| apply insert_fresh_subseteq].
  eapply lookup_weaken; [exact Ho | apply insert_fresh_subseteq].
Qed.

End BuilderFrame.

(* ===================================================================== *)
(** ** Further theorems about [PromptBuilder] *)
(* ===================================================================== *)

Module BuilderExtras.
Import PromptBuilder Client Views StoreFacts BuilderFacts BuilderFrame.

(** X1. [set_context(key, value)] returns the builder, binds [key] to
    [value] in the context (replacing an earlier binding, keeping the other
    keys), and changes neither the messages nor what any [build] shows. *)
Theorem set_context_stores {T : Text} (σ : store) self msgs ctx key v :
  held_messages σ self = Some msgs ->
  held_context σ self = Some ctx ->
  exists σ',
    set_context self key v σ = (Return self, σ') /\
    held_context σ' self = Some (<[key := v]> ctx) /\
    held_messages σ' self = Some msgs /\
    forall format, build_seen self format σ' = build_seen self format σ.
Proof.
  intros Hm (lm & lc & Hs & Hc)%held_context_Some.
  pose proof Hm as (lm' & lc' & xs & Hs' & Hl & H)%held_messages_Some.
  rewrite Hs in Hs'. injection Hs' as <- <-.
  assert (self <> lc) by (intros E; rewrite E in Hs; congruence).
  assert (lm <> lc) by (intros E; rewrite E in Hl; congruence).
  exists (<[lc := ODict (<[key := v]> ctx)]> σ).
  assert (Hm' : held_messages (<[lc := ODict (<[key := v]> ctx)]> σ) self = Some msgs).
  { apply held_messages_Some. exists lm, lc, xs.
    split; [by rewrite lookup_insert_ne |]. split; [by rewrite lookup_insert_ne |].
    eapply Forall2_impl; [exact H |]. intros x m Hx. simpl in *.
    rewrite lookup_insert_ne; [done |]. intros E. rewrite E in Hc. congruence. }
  split; [| split; [| split; [done |]]].
  - unfold set_context.
    rewrite (bind_Return _ _ _ _ _ (builder_fields_ok _ _ _ _ Hs)). simpl.
    by rewrite (bind_Return _ _ _ _ _ (get_dict_ok _ _ _ Hc)).
  - apply held_context_Some. exists lm, lc.
    split; [by rewrite lookup_insert_ne | by rewrite lookup_insert_eq].
  - intros format.
    by rewrite (build_seen_held _ _ _ _ Hm'), (build_seen_held _ _ _ _ Hm).
Qed.

Lemma set_context_stores_witness :
  held_messages two_messages.2 2%nat
    = Some [mkMessage "system" "Be brief."; mkMessage "user" "Hi"] /\
  held_context two_messages.2 2%nat = Some ∅ /\
  exists σ',
    set_context 2%nat "k" (VInt 42) two_messages.2 = (Return 2%nat, σ') /\
    held_context σ' 2%nat = Some (<[ "k" := VInt 42 ]> ∅) /\
    held_messages σ' 2%nat
      = Some [mkMessage "system" "Be brief."; mkMessage "user" "Hi"] /\
    forall format, build_seen 2%nat format σ' = build_seen 2%nat format two_messages.2.
Proof.
  assert (H1 : held_messages two_messages.2 2%nat
               = Some [mkMessage "system" "Be brief."; mkMessage "user" "Hi"])
    by (vm_compute; reflexivity).
  assert (H2 : held_context two_messages.2 2%nat = Some ∅)
    by (vm_compute; reflexivity).
  split; [exact H1 |]. split; [exact H2 |].
  exact (set_context_stores two_messages.2 2%nat _ ∅ "k" (VInt 42) H1 H2).
Defined.

(** X2. [clear()] on any builder, whatever it holds, returns the builder
    with no message and an empty context: the length is 0 and the string
    rendering is empty. It replaces the builder's two containers by new
    ones and writes no other object. *)
Theorem clear_resets {T : Text} (σ : store) self lm lc :
  σ !! self = Some (OBuilder lm lc) ->
  exists σ',
    clear self σ = (Return self, σ') /\
    held_messages σ' self = Some [] /\
    held_context σ' self = Some ∅ /\
    __len__ self σ' = (Return 0%nat, σ') /\
    build self "string" σ' = (Return (BString EmptyString), σ') /\
    kept_except self σ σ'.
Proof.
  intros Hs.
  set (lm' := fresh (dom σ)).
  set (σ1 := <[lm' := OList []]> σ).
  set (lc' := fresh (dom σ1)).
  set (σ2 := <[lc' := ODict ∅]> σ1).
  assert (Hrun : clear self σ = (Return self, <[self := OBuilder lm' lc']> σ2)).
  { unfold clear.
    rewrite (bind_Return _ _ _ _ _ (builder_fields_ok _ _ _ _ Hs)).
    by rewrite !(bind_Return _ _ _ _ _ (new_eq _ _)). }
  exists (<[self := OBuilder lm' lc']> σ2).
  assert (Hheld : held_messages (<[self := OBuilder lm' lc']> σ2) self = Some [])
    by (by eapply clear_held).
  split; [done |]. split; [done |].
  assert (H1 : σ1 !! lm' = Some (OList [])) by apply lookup_insert_eq.
  assert (lm' <> self) by (apply not_eq_sym; by eapply used_not_fresh).
  assert (Hs1 : σ1 !! self = Some (OBuilder lm lc)) by (by apply lookup_insert_Some; right).
  assert (lc' <> self) by (apply not_eq_sym; by eapply used_not_fresh).
  split; [| split; [| split]].
  - apply held_context_Some. exists lm', lc'.
    split; [by rewrite lookup_insert_eq |].
    rewrite lookup_insert_ne by done. apply lookup_insert_eq.
  - by rewrite (len_held _ _ _ Hheld).
  - unfold build. simpl.
    by rewrite (bind_Return _ _ _ _ _ (build_string_held _ _ _ Hheld)).
  - intros l o Hl Ho. rewrite lookup_insert_ne by done.
    eapply lookup_weaken; [| apply insert_fresh_subseteq].
    eapply lookup_weaken; [exact Ho | apply insert_fresh_subseteq].
Qed.

Lemma clear_resets_witness :
  two_messages.2 !! 2%nat = Some (OBuilder 0%nat 1%nat) /\
  exists σ',
    clear 2%nat two_messages.2 = (Return 2%nat, σ') /\
    held_messages σ' 2%nat = Some [] /\
    held_context σ' 2%nat = Some ∅ /\
    __len__ 2%nat σ' = (Return 0%nat, σ') /\
    build 2%nat "string" σ' = (Return (BString EmptyString), σ') /\
    kept_except 2%nat two_messages.2 σ'.
Proof.
  assert (H : two_messages.2 !! 2%nat = Some (OBuilder 0%nat 1%nat))
    by (vm_compute; reflexivity).
  split; [exact H |].
  exact (clear_resets two_messages.2 2%nat 0%nat 1%nat H).
Defined.

(** X3. [clear()] rebinds the builder's list instead of emptying it: a
    list that held messages before the call (one returned by an earlier
    [build("messages")], or the builder's own former list) holds the same
    messages afterwards. *)
Theorem clear_keeps_returned_lists (σ : store) self lm lc l msgs :
  σ !! self = Some (OBuilder lm lc) ->
  contents σ l = Some msgs ->
  contents (clear self σ).2 l = Some msgs.
Proof.
  intros Hs Hc.
  assert (l <> self).
  { intros ->. unfold contents in Hc. by rewrite Hs in Hc. }
  eapply contents_kept; [by eapply clear_kept | done | | done].
  intros m. by rewrite Hs.
Qed.

Lemma clear_keeps_returned_lists_witness :
  two_messages.2 !! 2%nat = Some (OBuilder 0%nat 1%nat) /\
  contents two_messages.2 0%nat
    = Some [mkMessage "system" "Be brief."; mkMessage "user" "Hi"] /\
  contents (clear 2%nat two_messages.2).2 0%nat
    = Some [mkMessage "system" "Be brief."; mkMessage "user" "Hi"].
Proof.
  assert (H1 : two_messages.2 !! 2%nat = Some (OBuilder 0%nat 1%nat))
    by (vm_compute; reflexivity).
  assert (H2 : contents two_messages.2 0%nat
               = Some [mkMessage "system" "Be brief."; mkMessage "user" "Hi"])
    by (vm_compute; reflexivity).
  split; [exact H1 |]. split; [exact H2 |].
  exact (clear_keeps_returned_lists two_messages.2 2%nat 0%nat 1%nat 0%nat _ H1 H2).
Defined.

(** X4. [build], with any format, recognised or not, changes no object of
    the store: the builder holds the same messages and the same context
    afterwards, and its length is the same. *)
Theorem build_reads_only {T : Text} (σ : store) self msgs ctx format :
  held_messages σ self = Some msgs ->
  held_context σ self = Some ctx ->
  σ ⊆ (build self format σ).2 /\
  held_messages (build self format σ).2 self = Some msgs /\
  held_context (build self format σ).2 self = Some ctx /\
  __len__ self (build self format σ).2
  = (Return (length msgs), (build self format σ).2).
Proof.
  intros Hm Hc.
  pose proof (build_grows σ self format msgs Hm) as Hsub.
  pose proof (held_messages_weaken _ _ _ _ Hsub Hm) as Hm'.
  split; [done |]. split; [done |].
  split; [by eapply held_context_weaken | by apply len_held].
Qed.

Lemma build_reads_only_witness :
  held_messages two_messages.2 2%nat
    = Some [mkMessage "system" "Be brief."; mkMessage "user" "Hi"] /\
  held_context two_messages.2 2%nat = Some ∅ /\
  two_messages.2 ⊆ (build 2%nat "chat" two_messages.2).2 /\
  held_messages (build 2%nat "chat" two_messages.2).2 2%nat
    = Some [mkMessage "system" "Be brief."; mkMessage "user" "Hi"] /\
  held_context (build 2%nat "chat" two_messages.2).2 2%nat = Some ∅ /\
  __len__ 2%nat (build 2%nat "chat" two_messages.2).2
  = (Return 2%nat, (build 2%nat "chat" two_messages.2).2).
Proof.
  assert (H1 : held_messages two_messages.2 2%nat
               = Some [mkMessage "system" "Be brief."; mkMessage "user" "Hi"])
    by (vm_compute; reflexivity).
  assert (H2 : held_context two_messages.2 2%nat = Some ∅)
    by (vm_compute; reflexivity).
  split; [exact H1 |]. split; [exact H2 |].
  exact (build_reads_only two_messages.2 2%nat _ ∅ "chat" H1 H2).
Defined.

(** X5. [build("chat")] returns a new record whose [messages] entry is a
    new list holding the builder's messages in order. Whatever elements the
    caller makes that list hold, the builder keeps its messages and every
    later [build] shows what it showed before. *)
Theorem build_chat_copies_list {T : Text} (σ : store) self msgs d σ1 :
  held_messages σ self = Some msgs ->
  build self "chat" σ = (Return (BChat d), σ1) ->
  exists c,
    σ !! d = None /\ σ !! c = None /\
    σ1 !! d = Some (OChat c) /\ contents σ1 c = Some msgs /\
    forall items,
      exists σ2,
        mutate c (SetItems items) σ1 = (Return tt, σ2) /\
        held_messages σ2 self = Some msgs /\
        forall format, build_seen self format σ2 = build_seen self format σ1.
Proof.
  intros Hheld Hbuild.
  destruct (build_chat_run σ self msgs Hheld) as (xs & Hb & Hc).
  rewrite Hb in Hbuild. injection Hbuild as <- <-.
  set (c := fresh (dom σ)) in *.
  set (σc := <[c := OList xs]> σ) in *.
  set (d := fresh (dom σc)) in *.
  assert (Hcd : c <> d) by (eapply used_not_fresh, lookup_insert_eq).
  assert (Hsub : σ ⊆ <[d := OChat c]> σc).
  { etrans; apply insert_fresh_subseteq. }
  assert (H1 : held_messages (<[d := OChat c]> σc) self = Some msgs)
    by (by eapply held_messages_weaken).
  exists c.
  split. { eapply lookup_weaken_None; [apply fresh_unused | apply insert_fresh_subseteq]. }
  split; [apply fresh_unused |].
  split; [by rewrite lookup_insert_eq |].
  split. { eapply contents_weaken; [apply insert_fresh_subseteq | done]. }
  intros items.
  assert (Hlc : (<[d := OChat c]> σc) !! c = Some (OList xs)).
  { rewrite lookup_insert_ne by done. apply lookup_insert_eq. }
  destruct (overwrite_other_list _ self msgs c xs items H1 Hlc) as (Hrun & H2 & _).
  { intros lm lc Hs ->.
    apply held_messages_Some in Hheld as (lm' & lc' & xs' & Hs' & Hl & _).
    assert (Hs2 : (<[d := OChat c]> σc) !! self = Some (OBuilder lm' lc'))
      by (by eapply lookup_weaken).
    rewrite Hs in Hs2. injection Hs2 as <- <-.
    pose proof (fresh_unused σ) as Hf. fold c in Hf. congruence. }
  eexists. split; [exact Hrun |]. split; [exact H2 |].
  intros format.
  by rewrite (build_seen_held _ _ _ _ H1), (build_seen_held _ _ _ _ H2).
Qed.

Lemma build_chat_copies_list_witness :
  held_messages two_messages.2 2%nat
    = Some [mkMessage "system" "Be brief."; mkMessage "user" "Hi"] /\
  exists c,
    two_messages.2 !! 6%nat = None /\ two_messages.2 !! c = None /\
    (build 2%nat "chat" two_messages.2).2 !! 6%nat = Some (OChat c) /\
    contents (build 2%nat "chat" two_messages.2).2 c
      = Some [mkMessage "system" "Be brief."; mkMessage "user" "Hi"] /\
    forall items,
      exists σ2,
        mutate c (SetItems items) (build 2%nat "chat" two_messages.2).2
          = (Return tt, σ2) /\
        held_messages σ2 2%nat
          = Some [mkMessage "system" "Be brief."; mkMessage "user" "Hi"] /\
        forall format,
          build_seen 2%nat format σ2
          = build_seen 2%nat format (build 2%nat "chat" two_messages.2).2.
Proof.
  assert (H1 : held_messages two_messages.2 2%nat
               = Some [mkMessage "system" "Be brief."; mkMessage "user" "Hi"])
    by (vm_compute; reflexivity).
  split; [exact H1 |].
  apply (build_chat_copies_list two_messages.2 2%nat _ 6%nat _ H1).
  vm_compute; reflexivity.
Defined.

(** X6. Two calls of [build("messages")] return two different list
    objects, each holding the builder's messages; whatever the caller makes
    the first list hold, the second still holds the messages. *)
Theorem build_messages_lists_independent {T : Text} (σ : store) self msgs r1 σ1 r2 σ2 :
  held_messages σ self = Some msgs ->
  build self "messages" σ = (Return (BMessages r1), σ1) ->
  build self "messages" σ1 = (Return (BMessages r2), σ2) ->
  r1 <> r2 /\
  contents σ2 r1 = Some msgs /\ contents σ2 r2 = Some msgs /\
  forall items, contents (mutate r1 (SetItems items) σ2).2 r2 = Some msgs.
Proof.
  intros Hheld Hb1 Hb2.
  destruct (build_messages_held σ self msgs Hheld) as (xs & Hb & Hc).
  rewrite Hb in Hb1. injection Hb1 as <- <-.
  set (r1 := fresh (dom σ)) in *.
  set (σ1 := <[r1 := OList xs]> σ) in *.
  assert (H1 : held_messages σ1 self = Some msgs).
  { eapply held_messages_weaken; [apply insert_fresh_subseteq | done]. }
  destruct (build_messages_held σ1 self msgs H1) as (xs' & Hb' & Hc').
  rewrite Hb' in Hb2. injection Hb2 as <- <-.
  set (r2 := fresh (dom σ1)) in *.
  assert (Hr1 : σ1 !! r1 = Some (OList xs)) by apply lookup_insert_eq.
  assert (Hne : r1 <> r2) by (by eapply used_not_fresh).
  assert (Hr1' : (<[r2 := OList xs']> σ1) !! r1 = Some (OList xs)).
  { eapply lookup_weaken; [exact Hr1 | apply insert_fresh_subseteq]. }
  split; [done |].
  split. { eapply contents_weaken; [apply insert_fresh_subseteq | done]. }
  split; [done |].
  intros items. unfold mutate.
  rewrite (bind_Return _ _ _ _ _ (get_list_ok _ _ _ Hr1')). cbn [put snd].
  eapply (contents_kept r1); [| by apply not_eq_sym | | exact Hc'].
  - intros l o Hl Ho. by rewrite lookup_insert_ne.
  - intros m. by rewrite Hr1'.
Qed.

Lemma build_messages_lists_independent_witness :
  held_messages two_messages.2 2%nat
    = Some [mkMessage "system" "Be brief."; mkMessage "user" "Hi"] /\
  5%nat <> 6%nat /\
  forall items,
    contents (mutate 5%nat (SetItems items)
                (build 2%nat "messages" (build 2%nat "messages" two_messages.2).2).2).2
      6%nat
    = Some [mkMessage "system" "Be brief."; mkMessage "user" "Hi"].
Proof.
  assert (H1 : held_messages two_messages.2 2%nat
               = Some [mkMessage "system" "Be brief."; mkMessage "user" "Hi"])
    by (vm_compute; reflexivity).
  split; [exact H1 |].
  destruct (build_messages_lists_independent two_messages.2 2%nat _ 5%nat
              (build 2%nat "messages" two_messages.2).2 6%nat
              (build 2%nat "messages" (build 2%nat "messages" two_messages.2).2).2
              H1 ltac:(vm_compute; reflexivity) ltac:(vm_compute; reflexivity))
    as (Hne & _ & _ & Hall).
  split; [exact Hne | exact Hall].
Defined.

(** X7. A list returned by [build("messages")] is a snapshot: messages
    added to the builder afterwards extend the builder's sequence and leave
    the returned list as it was. *)
Theorem returned_list_is_snapshot {T : Text} (σ : store) self msgs r σ1 cs :
  held_messages σ self = Some msgs ->
  build self "messages" σ = (Return (BMessages r), σ1) ->
  exists σ2,
    perform_all self cs σ1 = (Return self, σ2) /\
    contents σ2 r = Some msgs /\
    held_messages σ2 self = Some (msgs ++ map message_of cs).
Proof.
  intros Hheld Hb1.
  destruct (build_messages_held σ self msgs Hheld) as (xs & Hb & Hc).
  rewrite Hb in Hb1. injection Hb1 as <- <-.
  set (r := fresh (dom σ)) in *.
  set (σ1 := <[r := OList xs]> σ) in *.
  assert (H1 : held_messages σ1 self = Some msgs).
  { eapply held_messages_weaken; [apply insert_fresh_subseteq | done]. }
  pose proof Hheld as (lm & lc & xs0 & Hs & Hl & _)%held_messages_Some.
  assert (Hs1 : σ1 !! self = Some (OBuilder lm lc)).
  { eapply lookup_weaken; [exact Hs | apply insert_fresh_subseteq]. }
  assert (Hl1 : σ1 !! lm = Some (OList xs0)).
  { eapply lookup_weaken; [exact Hl | apply insert_fresh_subseteq]. }
  destruct (perform_all_frame σ1 self lm lc msgs cs Hs1 H1) as (σ2 & Hrun & H2 & Hk).
  exists σ2. split; [done |]. split; [| done].
  eapply (contents_kept lm); [exact Hk | | | exact Hc].
  - apply not_eq_sym. by eapply used_not_fresh.
  - intros m. by rewrite Hl1.
Qed.

Lemma returned_list_is_snapshot_witness :
  held_messages two_messages.2 2%nat
    = Some [mkMessage "system" "Be brief."; mkMessage "user" "Hi"] /\
  exists σ2,
    perform_all 2%nat [AddAssistant "Hello"] (build 2%nat "messages" two_messages.2).2
      = (Return 2%nat, σ2) /\
    contents σ2 5%nat = Some [mkMessage "system" "Be brief."; mkMessage "user" "Hi"] /\
    held_messages σ2 2%nat
      = Some ([mkMessage "system" "Be brief."; mkMessage "user" "Hi"]
                ++ map message_of [AddAssistant "Hello"]).
Proof.
  assert (H1 : held_messages two_messages.2 2%nat
               = Some [mkMessage "system" "Be brief."; mkMessage "user" "Hi"])
    by (vm_compute; reflexivity).
  split; [exact H1 |].
  apply (returned_list_is_snapshot two_messages.2 2%nat _ 5%nat _ _ H1).
  vm_compute; reflexivity.
Defined.

(** X8. On a builder in any state, a chain of N add calls returns the
    builder, keeps the messages it held as a prefix, appends the N new
    records in call order, raises the length by N and leaves the context as
    it was. *)
Theorem add_calls_extend (σ : store) self msgs ctx cs :
  held_messages σ self = Some msgs ->
  held_context σ self = Some ctx ->
  exists σ',
    perform_all self cs σ = (Return self, σ') /\
    held_messages σ' self = Some (msgs ++ map message_of cs) /\
    __len__ self σ' = (Return (length msgs + length cs)%nat, σ') /\
    held_context σ' self = Some ctx.
Proof.
  intros Hm Hc.
  pose proof Hc as (lm & lc & Hs & Hd)%held_context_Some.
  destruct (held_messages_list σ self lm lc msgs Hs Hm) as (xs & Hl & Hne).
  destruct (perform_all_frame σ self lm lc msgs cs Hs Hm) as (σ' & Hrun & H' & Hk).
  exists σ'. split; [done |]. split; [done |]. split.
  - rewrite (len_held _ _ _ H'). by rewrite length_app, length_map.
  - eapply held_context_kept; [exact Hs | done | | exact Hk | done].
    intros E. rewrite E in Hd. congruence.
Qed.

Lemma add_calls_extend_witness :
  held_messages two_messages.2 2%nat
    = Some [mkMessage "system" "Be brief."; mkMessage "user" "Hi"] /\
  held_context two_messages.2 2%nat = Some ∅ /\
  exists σ',
    perform_all 2%nat [AddAssistant "Hello"; AddUser "Hi"] two_messages.2
      = (Return 2%nat, σ') /\
    held_messages σ' 2%nat
      = Some ([mkMessage "system" "Be brief."; mkMessage "user" "Hi"]
                ++ map message_of [AddAssistant "Hello"; AddUser "Hi"]) /\
    __len__ 2%nat σ' = (Return 4%nat, σ') /\
    held_context σ' 2%nat = Some ∅.
Proof.
  assert (H1 : held_messages two_messages.2 2%nat
               = Some [mkMessage "system" "Be brief."; mkMessage "user" "Hi"])
    by (vm_compute; reflexivity).
  assert (H2 : held_context two_messages.2 2%nat = Some ∅)
    by (vm_compute; reflexivity).
  split; [exact H1 |]. split; [exact H2 |].
  exact (add_calls_extend two_messages.2 2%nat _ ∅
           [AddAssistant "Hello"; AddUser "Hi"] H1 H2).
Defined.

(** X9. Adding a message to a builder extends its string rendering,
    whatever function [str.upper] is: to a builder without messages the
    rendering becomes the new line; otherwise it is the old rendering, a
    blank line, and the new line. *)
Theorem build_string_after_add {T : Text} (σ : store) self msgs r c :
  held_messages σ self = Some msgs ->
  exists s σ',
    build self "string" σ = (Return (BString s), σ) /\
    add_message self r c σ = (Return self, σ') /\
    build self "string" σ'
    = (Return (BString (match msgs with
                        | [] => line (mkMessage r c)
                        | _ => s +:+ blank_line +:+ line (mkMessage r c)
                        end)), σ').
Proof.
  intros Hheld.
  destruct (add_message_held σ self msgs r c Hheld) as (σ' & Hrun & H').
  exists (join blank_line (map line msgs)), σ'.
  split; [| split; [done |]].
  - unfold build. simpl.
    by rewrite (bind_Return _ _ _ _ _ (build_string_held _ _ _ Hheld)).
  - unfold build. simpl.
    rewrite (bind_Return _ _ _ _ _ (build_string_held _ _ _ H')).
    rewrite map_app. simpl map. rewrite join_snoc. by destruct msgs.
Qed.

Lemma build_string_after_add_witness :
  held_messages two_messages.2 2%nat
    = Some [mkMessage "system" "Be brief."; mkMessage "user" "Hi"] /\
  exists s σ',
    build 2%nat "string" two_messages.2 = (Return (BString s), two_messages.2) /\
    add_message 2%nat "tool" "ok" two_messages.2 = (Return 2%nat, σ') /\
    build 2%nat "string" σ'
    = (Return (BString (s +:+ blank_line +:+ line (mkMessage "tool" "ok"))), σ').
Proof.
  assert (H1 : held_messages two_messages.2 2%nat
               = Some [mkMessage "system" "Be brief."; mkMessage "user" "Hi"])
    by (vm_compute; reflexivity).
  split; [exact H1 |].
  exact (build_string_after_add two_messages.2 2%nat _ "tool" "ok" H1).
Defined.

End BuilderExtras.

(* ===================================================================== *)
(** ** More facts about the template *)
(* ===================================================================== *)

Module TemplateMore.
Import Re SpecWords Segments ReFacts FormatFacts StoreFacts TemplateFacts.
Import PromptTemplate.

(** The filling looks at the names of the template only. *)
Lemma fill_agree segs (f g : string -> option value) :
  (forall x, x ∈ names segs -> f x = g x) -> fill segs f = fill segs g.
Proof.
  induction segs as [|[text|name] segs IH]; simpl; intros H; [done | |].
  - by rewrite IH.
  - rewrite (H name) by (by left).
    rewrite IH; [done |]. intros x Hx. apply H. by right.
Qed.

Lemma fill_all_covered segs eff :
  well_valued segs eff = true ->
  (forall x, x ∈ names segs -> is_Some (eff x)) -> exists s, fill segs eff = inr s.
Proof.
  induction segs as [|[text|name] segs IH]; intros Hv H.
  - by eexists.
  - simpl. destruct (IH Hv H) as [s ->]. by eexists.
  - apply well_valued_var in Hv as [Hv Hvs]. simpl.
    destruct (H name) as [v E]; [by left |].
    rewrite E, (str_renders v) by (by apply Hv).
    destruct IH as [s ->]; [done | | by eexists]. intros x Hx. apply H. by right.
Qed.

(** The first name without a value, with the covered names before it. *)
Lemma fill_first_missing segs eff k :
  fill segs eff = inl (KeyError k) ->
  exists pre post,
    names segs = pre ++ k :: post /\
    Forall (fun x => is_Some (eff x)) pre /\ eff k = None.
Proof.
  induction segs as [|[text|name] segs IH]; simpl; [done | |].
  - destruct (fill segs eff); [| done]. intros [= ->]. by apply IH.
  - destruct (eff name) as [v|] eqn:E.
    + destruct (str v) as [e|t] eqn:Ev.
      { intros [= ->]. by apply str_not_key in Ev. }
      destruct (fill segs eff); [| done]. intros [= ->].
      destruct IH as (pre & post & -> & Hpre & Hk); [done |].
      exists (name :: pre), post. split; [done |]. split; [| done].
      constructor; [by rewrite E | done].
    + intros [= ->]. exists [], (names segs).
      split; [done |]. split; [constructor | done].
Qed.

Lemma covered_iff (ids : list string) (m : gmap string value) :
  (list_to_set ids : gset string) ⊆ dom m <-> forall x, x ∈ ids -> is_Some (m !! x).
Proof.
  rewrite elem_of_subseteq. split; intros H x Hx.
  - apply elem_of_dom, H. by apply elem_of_list_to_set.
  - apply elem_of_dom, H. by apply elem_of_list_to_set in Hx.
Qed.

Lemma validate_true (σ : store) self t ld d kw :
  σ !! self = Some (OTemplate t ld) -> σ !! ld = Some (ODict d) ->
  kw !! "self" = None ->
  ((validate self kw σ).1 = Return true <->
   forall x, x ∈ findall t -> is_Some ((kw ∪ d) !! x)).
Proof.
  intros Hs Hd Hself. rewrite (validate_run _ _ _ _ _ kw Hs Hd Hself). cbn [fst].
  rewrite <- covered_iff. split.
  - intros [= H]. by apply bool_decide_eq_true in H.
  - intros H. f_equal. by apply bool_decide_eq_true.
Qed.

(** [format] on a template without any brace. *)
Lemma format_plain text kwargs :
  plain text = true -> StrFormat.format text kwargs = Return text.
Proof.
  intros H. rewrite <- (append_empty_r text) at 1.
  rewrite format_plain_prefix by done. simpl. by rewrite append_empty_r.
Qed.

(** A doubled brace is one literal brace. *)
Lemma format_doubled_open s kwargs :
  StrFormat.format (String "{" (String "{" s)) kwargs
  = StrFormat.prepend (String "{" EmptyString) (StrFormat.format s kwargs).
Proof.
  rewrite format_eq. unfold StrFormat.MarkupIterator_next.
  assert (StrFormat.scan_literal (String "{" (String "{" s))
          = (EmptyString, Some ("{"%char, String "{" s))) as -> by reflexivity.
  reflexivity.
Qed.

Lemma format_doubled_close s kwargs :
  StrFormat.format (String "}" (String "}" s)) kwargs
  = StrFormat.prepend (String "}" EmptyString) (StrFormat.format s kwargs).
Proof.
  rewrite format_eq. unfold StrFormat.MarkupIterator_next.
  assert (StrFormat.scan_literal (String "}" (String "}" s))
          = (EmptyString, Some ("}"%char, String "}" s))) as -> by reflexivity.
  reflexivity.
Qed.

Lemma format_pieces ps kwargs :
  forallb Braces.simple ps = true ->
  StrFormat.format (Braces.unparse ps) kwargs =
  match Braces.fill ps (fun k => kwargs !! k) with
  | inr s => Return s
  | inl e => Raise e
  end.
Proof.
  induction ps as [|[text|name| |] ps IH]; simpl; [done | | | |].
  - intros [Ht Hs]%andb_prop. rewrite format_plain_prefix, IH by done.
    by destruct (Braces.fill ps _).
  - intros [Hn Hs]%andb_prop. rewrite format_placeholder by done.
    destruct (kwargs !! name) as [v|]; [| done].
    destruct (str v); [done |]. rewrite IH by done.
    by destruct (Braces.fill ps _).
  - intros Hs. rewrite format_doubled_open, IH by done.
    by destruct (Braces.fill ps _).
  - intros Hs. rewrite format_doubled_close, IH by done.
    by destruct (Braces.fill ps _).
Qed.

(** An empty pair of braces is an automatically numbered field, and there
    is no positional argument. *)
Lemma format_empty_braces s kwargs :
  StrFormat.format (String "{" (String "}" s)) kwargs = Raise (IndexError 0).
Proof.
  rewrite format_eq, next_open_field by reflexivity. reflexivity.
Qed.

Lemma format_lone_close text kwargs :
  plain text = true ->
  StrFormat.format (String "}" text) kwargs
  = Raise (ValueError "Single '}' encountered in format string").
Proof.
  intros H. rewrite format_eq. unfold StrFormat.MarkupIterator_next.
  assert (StrFormat.scan_literal (String "}" text)
          = (EmptyString, Some ("}"%char, text))) as -> by reflexivity.
  destruct text as [|c text]; [done |].
  simpl in H. apply andb_prop in H as [Hc _]. apply negb_true_iff in Hc.
  unfold StrFormat.is_brace in Hc. apply orb_false_elim in Hc as [_ Hc].
  rewrite Ascii.eqb_refl, Hc. reflexivity.
Qed.

(** The outcome of [format] in terms of [str.format] on the merged dict. *)
Lemma format_outcome (σ : store) self t ld d kw :
  σ !! self = Some (OTemplate t ld) -> σ !! ld = Some (ODict d) ->
  kw !! "self" = None ->
  (format self kw σ).1 =
  match StrFormat.format t (kw ∪ d) with
  | Return s => Return s
  | Raise (KeyError key) => missing_variable key
  | Raise e => Raise e
  | Stuck => Stuck
  | Unmodelled => Unmodelled
  end.
Proof. intros Hs Hd Hself. by rewrite (format_run _ _ _ _ _ kw Hs Hd Hself). Qed.

(** The rendering of a template with doubled braces looks at the mapping
    through its lookups only. *)
Lemma braces_fill_ext ps (eff eff' : string -> option value) :
  (forall k, eff k = eff' k) -> Braces.fill ps eff = Braces.fill ps eff'.
Proof.
  intros H. induction ps as [|[text|name| |] ps IH]; simpl; [done | ..];
    rewrite ?H, IH; done.
Qed.

(** A name the rendering reports as missing is a placeholder of the template. *)
Lemma braces_fill_missing ps eff k :
  forallb Braces.simple ps = true ->
  Braces.fill ps eff = inl (KeyError k) -> simple_name k = true.
Proof.
  induction ps as [|[text|name| |] ps IH]; simpl; [done | | | |].
  - intros [_ Hs]%andb_prop. destruct (Braces.fill ps eff); [| done].
    intros [= ->]. by apply IH.
  - intros [Hn Hs]%andb_prop. destruct (eff name) as [v|].
    + destruct (str v) as [e|t] eqn:Ev.
      { intros [= ->]. by apply str_not_key in Ev. }
      destruct (Braces.fill ps eff); [| done]. intros [= ->]. by apply IH.
    + by intros [= <-].
  - intros Hs. destruct (Braces.fill ps eff); [| done]. intros [= ->]. by apply IH.
  - intros Hs. destruct (Braces.fill ps eff); [| done]. intros [= ->]. by apply IH.
Qed.

Lemma str_run (σ : store) self t ld :
  σ !! self = Some (OTemplate t ld) -> __str__ self σ = (Return t, σ).
Proof.
  intros Hs. unfold __str__.
  by rewrite (bind_Return _ _ _ _ _ (template_fields_ok _ _ _ _ Hs)).
Qed.

(** The constructor allocates the defaults dict, then the template. *)
Lemma init_new (σ0 : store) t d :
  d !! "self" = None -> d !! "template" = None ->
  __init__ t d σ0
  = (Return (fresh (dom (<[fresh (dom σ0) := ODict d]> σ0))),
     <[fresh (dom (<[fresh (dom σ0) := ODict d]> σ0)) := OTemplate t (fresh (dom σ0))]>
       (<[fresh (dom σ0) := ODict d]> σ0)).
Proof. intros H1 H2. unfold __init__. by rewrite H1, H2. Qed.

(** The constructor returns only when no default is named like one of its
    own parameters. *)
Lemma init_returns (σ0 σ : store) t d self :
  __init__ t d σ0 = (Return self, σ) ->
  d !! "self" = None /\ d !! "template" = None.
Proof.
  unfold __init__. by destruct (d !! "self"), (d !! "template").
Qed.

(** A template of the catalog: simple, without defaults. *)
Lemma catalog_run segs (σ0 : store) kw :
  forallb simple segs = true ->
  kw !! "self" = None ->
  exists self σ,
    __init__ (unparse segs) ∅ σ0 = (Return self, σ) /\
    σ0 !! self = None /\
    get_variables self σ = (Return (names segs), σ) /\
    (format self kw σ).1 =
      (match fill segs (fun k => kw !! k) with
       | inr s => Return s
       | inl (KeyError k) => missing_variable k
       | inl e => Raise e
       end) /\
    (validate self kw σ).1
    = Return (bool_decide (Forall (fun x => is_Some (kw !! x)) (names segs))).
Proof.
  intros Hsimple Hself.
  destruct (init_run σ0 (unparse segs) ∅ (lookup_empty _) (lookup_empty _))
    as (self & ld & σ & Hrun & Hs & Hd).
  exists self, σ. split; [done |].
  split.
  { rewrite init_new in Hrun by apply lookup_empty. injection Hrun as <- <-.
    eapply lookup_weaken_None; [apply fresh_unused | apply insert_fresh_subseteq]. }
  split.
  { rewrite (get_variables_run _ _ _ _ Hs). by rewrite findall_unparse. }
  split.
  - rewrite (format_outcome _ _ _ _ _ kw Hs Hd Hself), (format_unparse _ _ Hsimple).
    rewrite (right_id_L ∅ (∪) kw). by destruct (fill segs _) as [[]|].
  - rewrite (validate_run _ _ _ _ _ kw Hs Hd Hself). cbn [fst]. f_equal.
    apply bool_decide_ext. rewrite covered_iff, (findall_unparse _ Hsimple).
    rewrite (right_id_L ∅ (∪) kw). by rewrite Forall_forall.
Qed.

End TemplateMore.

(* ===================================================================== *)
(** ** Further theorems about [PromptTemplate] *)
(* ===================================================================== *)

Module TemplateExtras.
Import Re SpecWords Segments ReFacts FormatFacts StoreFacts TemplateFacts.
Import TemplateMore PromptTemplate TemplateClient Views.

(** X10. A template without any brace has no variable: [get_variables]
    returns the empty list, and with overrides that have no key [self],
    [validate] returns true and [format] returns the template itself,
    whatever the defaults and the overrides. *)
Theorem plain_template_unchanged (σ : store) self t ld d kw :
  σ !! self = Some (OTemplate t ld) ->
  σ !! ld = Some (ODict d) ->
  kw !! "self" = None ->
  plain t = true ->
  get_variables self σ = (Return [], σ) /\
  (validate self kw σ).1 = Return true /\
  (format self kw σ).1 = Return t.
Proof.
  intros Hs Hd Hself Hplain.
  assert (Hnone : findall t = []).
  { rewrite <- (append_empty_r t).
    by rewrite findall_literal by (by apply plain_no_open). }
  split; [| split].
  - by rewrite (get_variables_run _ _ _ _ Hs), Hnone.
  - apply (validate_true σ self t ld d kw Hs Hd Hself).
    rewrite Hnone. intros x Hx. by apply elem_of_nil in Hx.
  - by rewrite (format_outcome _ _ _ _ _ kw Hs Hd Hself), format_plain.
Qed.

Lemma plain_template_unchanged_witness :
  fixed_text.2 !! 1%nat = Some (OTemplate "Hello" 0%nat) /\
  fixed_text.2 !! 0%nat = Some (ODict {[ "name" := VStr "World" ]}) /\
  ({[ "x" := VInt 1 ]} : gmap string value) !! "self" = None /\
  plain "Hello" = true /\
  get_variables 1%nat fixed_text.2 = (Return [], fixed_text.2) /\
  (validate 1%nat {[ "x" := VInt 1 ]} fixed_text.2).1 = Return true /\
  (format 1%nat {[ "x" := VInt 1 ]} fixed_text.2).1 = Return "Hello".
Proof.
  assert (H1 : fixed_text.2 !! 1%nat = Some (OTemplate "Hello" 0%nat))
    by (vm_compute; reflexivity).
  assert (H2 : fixed_text.2 !! 0%nat = Some (ODict {[ "name" := VStr "World" ]}))
    by (vm_compute; reflexivity).
  assert (H3 : ({[ "x" := VInt 1 ]} : gmap string value) !! "self" = None)
    by (vm_compute; reflexivity).
  assert (H4 : plain "Hello" = true) by (vm_compute; reflexivity).
  split; [exact H1 |]. split; [exact H2 |]. split; [exact H3 |]. split; [exact H4 |].
  exact (plain_template_unchanged fixed_text.2 1%nat "Hello" 0%nat _
           {[ "x" := VInt 1 ]} H1 H2 H3 H4).
Defined.

(** X11. For a template of brace-free text and simple placeholders, an
    override whose key is neither a placeholder of the template nor [self]
    changes neither what [format] returns or raises nor what [validate]
    returns or raises. *)
Theorem unused_override_ignored (σ : store) self segs ld d kw k v :
  σ !! self = Some (OTemplate (unparse segs) ld) ->
  σ !! ld = Some (ODict d) ->
  forallb simple segs = true ->
  k ∉ names segs ->
  k <> "self" ->
  (format self (<[k := v]> kw) σ).1 = (format self kw σ).1 /\
  (validate self (<[k := v]> kw) σ).1 = (validate self kw σ).1.
Proof.
  intros Hs Hd Hsimple Hk Hne.
  assert (Hsame : forall x, x ∈ names segs ->
                            (<[k := v]> kw ∪ d) !! x = (kw ∪ d) !! x).
  { intros x Hx. rewrite !lookup_union, lookup_insert_ne; [done |].
    intros ->. done. }
  destruct (kw !! "self") as [w|] eqn:Hself.
  { assert (Hself' : <[k := v]> kw !! "self" = Some w)
      by (by rewrite lookup_insert_ne).
    by rewrite (format_refused _ _ _ _ Hself), (format_refused _ _ _ _ Hself'),
      (validate_refused _ _ _ _ Hself), (validate_refused _ _ _ _ Hself'). }
  assert (Hself' : <[k := v]> kw !! "self" = None)
    by (by rewrite lookup_insert_ne).
  split.
  - rewrite (format_outcome _ _ _ _ _ _ Hs Hd Hself),
      (format_outcome _ _ _ _ _ _ Hs Hd Hself'), !(format_unparse _ _ Hsimple).
    by rewrite (fill_agree segs _ (fun x => (kw ∪ d) !! x)).
  - rewrite (validate_run _ _ _ _ _ _ Hs Hd Hself),
      (validate_run _ _ _ _ _ _ Hs Hd Hself'). cbn [fst]. f_equal.
    apply bool_decide_ext. rewrite !covered_iff, (findall_unparse _ Hsimple).
    split; intros H x Hx; specialize (H x Hx).
    + by rewrite <- Hsame.
    + by rewrite Hsame.
Qed.

Lemma unused_override_ignored_witness :
  greeting.2 !! 1%nat = Some (OTemplate (unparse [Lit "Hello "; Var "name"]) 0%nat) /\
  greeting.2 !! 0%nat = Some (ODict {[ "name" := VStr "World" ]}) /\
  forallb simple [Lit "Hello "; Var "name"] = true /\
  ("age" ∉ names [Lit "Hello "; Var "name"]) /\
  ("age" <> "self") /\
  (format 1%nat (<[ "age" := VInt 30 ]> ∅) greeting.2).1 = (format 1%nat ∅ greeting.2).1 /\
  (validate 1%nat (<[ "age" := VInt 30 ]> ∅) greeting.2).1
  = (validate 1%nat ∅ greeting.2).1.
Proof.
  assert (H1 : greeting.2 !! 1%nat
               = Some (OTemplate (unparse [Lit "Hello "; Var "name"]) 0%nat))
    by (vm_compute; reflexivity).
  assert (H2 : greeting.2 !! 0%nat = Some (ODict {[ "name" := VStr "World" ]}))
    by (vm_compute; reflexivity).
  assert (H3 : forallb simple [Lit "Hello "; Var "name"] = true)
    by (vm_compute; reflexivity).
  assert (H4 : "age" ∉ names [Lit "Hello "; Var "name"]).
  { simpl. intros [E|E]%elem_of_cons; [discriminate | by apply elem_of_nil in E]. }
  assert (H5 : "age" <> "self") by discriminate.
  split; [exact H1 |]. split; [exact H2 |]. split; [exact H3 |]. split; [exact H4 |].
  split; [exact H5 |].
  exact (unused_override_ignored greeting.2 1%nat _ 0%nat _ ∅ "age" (VInt 30)
           H1 H2 H3 H4 H5).
Defined.

(** X12. For a template of brace-free text and simple placeholders, with
    overrides that have no key [self] and values that [str] accepts,
    [validate] answers whether [format] will succeed: it returns true
    exactly when [format], given the same overrides, returns a string. *)
Theorem validate_predicts_format (σ : store) self segs ld d kw :
  σ !! self = Some (OTemplate (unparse segs) ld) ->
  σ !! ld = Some (ODict d) ->
  kw !! "self" = None ->
  forallb simple segs = true ->
  well_valued segs (effective d kw) = true ->
  ((validate self kw σ).1 = Return true <->
   exists s, (format self kw σ).1 = Return s).
Proof.
  intros Hs Hd Hself Hsimple Hv.
  rewrite (validate_true _ _ _ _ _ kw Hs Hd Hself), (findall_unparse _ Hsimple).
  rewrite (format_outcome _ _ _ _ _ kw Hs Hd Hself), (format_unparse _ _ Hsimple).
  rewrite (well_valued_ext segs _ (fun k => (kw ∪ d) !! k)) in Hv
    by (intros k; symmetry; apply effective_union).
  split.
  - intros H.
    destruct (fill_all_covered segs (fun k => (kw ∪ d) !! k) Hv H) as [s ->].
    by exists s.
  - intros [s H]. destruct (fill segs _) as [e|s0] eqn:E.
    + destruct (fill_failure _ _ _ Hv E) as [k ->].
      unfold missing_variable in H. by destruct (repr k).
    + by eapply fill_covered.
Qed.

Lemma validate_predicts_format_witness :
  greeting.2 !! 1%nat = Some (OTemplate (unparse [Lit "Hello "; Var "name"]) 0%nat) /\
  greeting.2 !! 0%nat = Some (ODict {[ "name" := VStr "World" ]}) /\
  (∅ : gmap string value) !! "self" = None /\
  forallb simple [Lit "Hello "; Var "name"] = true /\
  well_valued [Lit "Hello "; Var "name"] (effective {[ "name" := VStr "World" ]} ∅)
  = true /\
  ((validate 1%nat ∅ greeting.2).1 = Return true <->
   exists s, (format 1%nat ∅ greeting.2).1 = Return s).
Proof.
  assert (H1 : greeting.2 !! 1%nat
               = Some (OTemplate (unparse [Lit "Hello "; Var "name"]) 0%nat))
    by (vm_compute; reflexivity).
  assert (H2 : greeting.2 !! 0%nat = Some (ODict {[ "name" := VStr "World" ]}))
    by (vm_compute; reflexivity).
  assert (H3 : (∅ : gmap string value) !! "self" = None)
    by (vm_compute; reflexivity).
  assert (H4 : forallb simple [Lit "Hello "; Var "name"] = true)
    by (vm_compute; reflexivity).
  assert (H5 : well_valued [Lit "Hello "; Var "name"]
                 (effective {[ "name" := VStr "World" ]} ∅) = true)
    by (vm_compute; reflexivity).
  split; [exact H1 |]. split; [exact H2 |]. split; [exact H3 |].
  split; [exact H4 |]. split; [exact H5 |].
  exact (validate_predicts_format greeting.2 1%nat _ 0%nat _ ∅ H1 H2 H3 H4 H5).
Defined.

(** X13. For every template, more overrides, none of them named [self],
    never turn a true [validate] into a false one. *)
Theorem validate_monotone (σ : store) self t ld d kw more :
  σ !! self = Some (OTemplate t ld) ->
  σ !! ld = Some (ODict d) ->
  more !! "self" = None ->
  (validate self kw σ).1 = Return true ->
  (validate self (more ∪ kw) σ).1 = Return true.
Proof.
  intros Hs Hd Hmore Htrue.
  destruct (kw !! "self") as [w|] eqn:Hself.
  { by rewrite (validate_refused _ _ _ _ Hself) in Htrue. }
  assert (Hself' : (more ∪ kw) !! "self" = None)
    by (by apply lookup_union_None).
  revert Htrue.
  rewrite (validate_true _ _ _ _ _ _ Hs Hd Hself),
    (validate_true _ _ _ _ _ _ Hs Hd Hself').
  intros H x Hx. destruct (H x Hx) as [v Hv].
  rewrite <- (assoc_L (∪)).
  destruct (more !! x) as [w|] eqn:E.
  - exists w. by apply lookup_union_Some_l.
  - exists v. by rewrite lookup_union_r.
Qed.

Lemma validate_monotone_witness :
  greeting.2 !! 1%nat = Some (OTemplate "Hello {name}" 0%nat) /\
  greeting.2 !! 0%nat = Some (ODict {[ "name" := VStr "World" ]}) /\
  ({[ "age" := VInt 30 ]} : gmap string value) !! "self" = None /\
  (validate 1%nat ∅ greeting.2).1 = Return true /\
  (validate 1%nat ({[ "age" := VInt 30 ]} ∪ ∅) greeting.2).1 = Return true.
Proof.
  assert (H1 : greeting.2 !! 1%nat = Some (OTemplate "Hello {name}" 0%nat))
    by (vm_compute; reflexivity).
  assert (H2 : greeting.2 !! 0%nat = Some (ODict {[ "name" := VStr "World" ]}))
    by (vm_compute; reflexivity).
  assert (H3 : ({[ "age" := VInt 30 ]} : gmap string value) !! "self" = None)
    by (vm_compute; reflexivity).
  assert (H4 : (validate 1%nat ∅ greeting.2).1 = Return true)
    by (vm_compute; reflexivity).
  split; [exact H1 |]. split; [exact H2 |]. split; [exact H3 |]. split; [exact H4 |].
  exact (validate_monotone greeting.2 1%nat _ 0%nat _ ∅ {[ "age" := VInt 30 ]}
           H1 H2 H3 H4).
Defined.

(** X14. For every template, overrides given to a call, none of them named
    [self], act like defaults given at construction: [format(overrides)]
    and [validate(overrides)] on a template with defaults D give what
    [format()] and [validate()] give on a template with the same string
    whose defaults are D with the overrides on top. *)
Theorem overrides_act_as_defaults (σ σ' : store) self self' t ld ld' d kw :
  σ !! self = Some (OTemplate t ld) ->
  σ !! ld = Some (ODict d) ->
  σ' !! self' = Some (OTemplate t ld') ->
  σ' !! ld' = Some (ODict (kw ∪ d)) ->
  kw !! "self" = None ->
  (format self kw σ).1 = (format self' ∅ σ').1 /\
  (validate self kw σ).1 = (validate self' ∅ σ').1.
Proof.
  intros Hs Hd Hs' Hd' Hself.
  rewrite (format_outcome _ _ _ _ _ kw Hs Hd Hself),
    (format_outcome _ _ _ _ _ ∅ Hs' Hd' (lookup_empty _)).
  rewrite (validate_run _ _ _ _ _ kw Hs Hd Hself),
    (validate_run _ _ _ _ _ ∅ Hs' Hd' (lookup_empty _)).
  by rewrite (left_id_L ∅ (∪)).
Qed.

Lemma overrides_act_as_defaults_witness :
  (__init__ "Hello {name}" ∅ ∅).2 !! 1%nat = Some (OTemplate "Hello {name}" 0%nat) /\
  (__init__ "Hello {name}" ∅ ∅).2 !! 0%nat = Some (ODict ∅) /\
  greeting.2 !! 1%nat = Some (OTemplate "Hello {name}" 0%nat) /\
  greeting.2 !! 0%nat = Some (ODict ({[ "name" := VStr "World" ]} ∪ ∅)) /\
  ({[ "name" := VStr "World" ]} : gmap string value) !! "self" = None /\
  (format 1%nat {[ "name" := VStr "World" ]} (__init__ "Hello {name}" ∅ ∅).2).1
  = (format 1%nat ∅ greeting.2).1 /\
  (validate 1%nat {[ "name" := VStr "World" ]} (__init__ "Hello {name}" ∅ ∅).2).1
  = (validate 1%nat ∅ greeting.2).1.
Proof.
  assert (H1 : (__init__ "Hello {name}" ∅ ∅).2 !! 1%nat
               = Some (OTemplate "Hello {name}" 0%nat)) by (vm_compute; reflexivity).
  assert (H2 : (__init__ "Hello {name}" ∅ ∅).2 !! 0%nat = Some (ODict ∅))
    by (vm_compute; reflexivity).
  assert (H3 : greeting.2 !! 1%nat = Some (OTemplate "Hello {name}" 0%nat))
    by (vm_compute; reflexivity).
  assert (H4 : greeting.2 !! 0%nat = Some (ODict ({[ "name" := VStr "World" ]} ∪ ∅)))
    by (vm_compute; reflexivity).
  assert (H5 : ({[ "name" := VStr "World" ]} : gmap string value) !! "self" = None)
    by (vm_compute; reflexivity).
  split; [exact H1 |]. split; [exact H2 |]. split; [exact H3 |]. split; [exact H4 |].
  split; [exact H5 |].
  exact (overrides_act_as_defaults _ _ 1%nat 1%nat _ 0%nat 0%nat ∅ _ H1 H2 H3 H4 H5).
Defined.

(** X15. In a template of brace-free text, simple placeholders and doubled
    braces, with overrides that have no key [self], [format] renders each
    doubled brace as one literal brace and each placeholder as the text of
    its value; it stops at the first placeholder, in template order, that
    has no value or whose value [str] refuses: for a placeholder without a
    value it raises the missing-variable error with the quoted name, for a
    refused value the error of [str]; it fails in no other way. *)
Theorem doubled_braces_are_literal (σ : store) self ps ld d kw :
  σ !! self = Some (OTemplate (Braces.unparse ps) ld) ->
  σ !! ld = Some (ODict d) ->
  kw !! "self" = None ->
  forallb Braces.simple ps = true ->
  (format self kw σ).1 = Braces.reported (Braces.fill ps (effective d kw)) /\
  (forall k, Braces.fill ps (effective d kw) = inl (KeyError k) ->
     exists quoted, repr k = Some quoted /\
       (format self kw σ).1
       = Raise (ValueError ("Missing required template variable: " +:+ quoted))).
Proof.
  intros Hs Hd Hself Hsimple.
  rewrite (format_outcome _ _ _ _ _ kw Hs Hd Hself), (format_pieces _ _ Hsimple).
  rewrite (braces_fill_ext ps _ (effective d kw)) by apply effective_union.
  split.
  - by destruct (Braces.fill ps _) as [[]|].
  - intros k E. rewrite E.
    destruct (simple_name_repr k (braces_fill_missing _ _ _ Hsimple E)) as [quoted Hq].
    exists quoted. split; [done |]. unfold missing_variable. by rewrite Hq.
Qed.

Lemma doubled_braces_are_literal_witness :
  braced.2 !! 1%nat
    = Some (OTemplate
              (Braces.unparse [Braces.OpenBrace; Braces.Field "name"; Braces.CloseBrace])
              0%nat) /\
  braced.2 !! 0%nat = Some (ODict ∅) /\
  ({[ "name" := VStr "x" ]} : gmap string value) !! "self" = None /\
  forallb Braces.simple [Braces.OpenBrace; Braces.Field "name"; Braces.CloseBrace]
    = true /\
  (format 1%nat {[ "name" := VStr "x" ]} braced.2).1 = Return "{x}".
Proof.
  assert (H1 : braced.2 !! 1%nat
               = Some (OTemplate
                         (Braces.unparse
                            [Braces.OpenBrace; Braces.Field "name"; Braces.CloseBrace])
                         0%nat)) by (vm_compute; reflexivity).
  assert (H2 : braced.2 !! 0%nat = Some (ODict ∅)) by (vm_compute; reflexivity).
  assert (H3 : ({[ "name" := VStr "x" ]} : gmap string value) !! "self" = None)
    by (vm_compute; reflexivity).
  assert (H4 : forallb Braces.simple
                 [Braces.OpenBrace; Braces.Field "name"; Braces.CloseBrace] = true)
    by (vm_compute; reflexivity).
  split; [exact H1 |]. split; [exact H2 |]. split; [exact H3 |]. split; [exact H4 |].
  exact (proj1 (doubled_braces_are_literal braced.2 1%nat _ 0%nat ∅
                  {[ "name" := VStr "x" ]} H1 H2 H3 H4)).
Defined.

(** X16. A template with an empty pair of braces after brace-free text
    cannot be rendered: whatever the defaults and the overrides without
    key [self], [format] raises IndexError, which it does not turn into
    the missing-variable error; [get_variables] does not list the empty
    placeholder, so [validate] does not ask for it. *)
Theorem empty_placeholder_unrenderable (σ : store) self a b ld d kw :
  σ !! self = Some (OTemplate (a +:+ String "{" (String "}" b)) ld) ->
  σ !! ld = Some (ODict d) ->
  kw !! "self" = None ->
  plain a = true ->
  (format self kw σ).1 = Raise (IndexError 0) /\
  get_variables self σ = (Return (findall b), σ) /\
  ((validate self kw σ).1 = Return true <->
   forall x, x ∈ findall b -> is_Some (effective d kw x)).
Proof.
  intros Hs Hd Hself Hplain.
  assert (Hids : findall (a +:+ String "{" (String "}" b)) = findall b).
  { rewrite findall_literal by (by apply plain_no_open).
    apply findall_empty_braces. }
  split; [| split].
  - rewrite (format_outcome _ _ _ _ _ kw Hs Hd Hself).
    by rewrite format_plain_prefix, format_empty_braces by done.
  - by rewrite (get_variables_run _ _ _ _ Hs), Hids.
  - rewrite (validate_true _ _ _ _ _ kw Hs Hd Hself), Hids.
    split; intros H x Hx; specialize (H x Hx).
    + by rewrite <- effective_union.
    + by rewrite effective_union.
Qed.

Lemma empty_placeholder_unrenderable_witness :
  empty_placeholder.2 !! 1%nat
    = Some (OTemplate ("Hi " +:+ String "{" (String "}" EmptyString)) 0%nat) /\
  empty_placeholder.2 !! 0%nat = Some (ODict ∅) /\
  (∅ : gmap string value) !! "self" = None /\
  plain "Hi " = true /\
  (format 1%nat ∅ empty_placeholder.2).1 = Raise (IndexError 0) /\
  get_variables 1%nat empty_placeholder.2
    = (Return (findall EmptyString), empty_placeholder.2) /\
  ((validate 1%nat ∅ empty_placeholder.2).1 = Return true <->
   forall x, x ∈ findall EmptyString -> is_Some (effective ∅ ∅ x)).
Proof.
  assert (H1 : empty_placeholder.2 !! 1%nat
               = Some (OTemplate ("Hi " +:+ String "{" (String "}" EmptyString)) 0%nat))
    by (vm_compute; reflexivity).
  assert (H2 : empty_placeholder.2 !! 0%nat = Some (ODict ∅))
    by (vm_compute; reflexivity).
  assert (H3 : (∅ : gmap string value) !! "self" = None)
    by (vm_compute; reflexivity).
  assert (H4 : plain "Hi " = true) by (vm_compute; reflexivity).
  split; [exact H1 |]. split; [exact H2 |]. split; [exact H3 |]. split; [exact H4 |].
  exact (empty_placeholder_unrenderable empty_placeholder.2 1%nat "Hi " EmptyString
           0%nat ∅ ∅ H1 H2 H3 H4).
Defined.

(** X17. A brace that is neither doubled nor part of a placeholder is a
    format error of its own, whatever the variables (none of them given
    as an override named [self]): a closing brace between brace-free
    texts, and an opening brace at the very end, make [format] raise the
    ValueError of [str.format], not the missing-variable error. *)
Theorem lone_brace_is_error (σ : store) self t ld d kw :
  σ !! self = Some (OTemplate t ld) ->
  σ !! ld = Some (ODict d) ->
  kw !! "self" = None ->
  (forall a b, plain a = true -> plain b = true -> t = a +:+ String "}" b ->
     (format self kw σ).1
     = Raise (ValueError "Single '}' encountered in format string")) /\
  (forall a, plain a = true -> t = a +:+ String "{" EmptyString ->
     (format self kw σ).1
     = Raise (ValueError "Single '{' encountered in format string")).
Proof.
  intros Hs Hd Hself. rewrite (format_outcome _ _ _ _ _ kw Hs Hd Hself). split.
  - intros a b Ha Hb ->.
    by rewrite format_plain_prefix, format_lone_close by done.
  - intros a Ha ->. by rewrite format_plain_prefix by done.
Qed.

Lemma lone_brace_is_error_witness :
  (__init__ "50% off}" ∅ ∅).2 !! 1%nat = Some (OTemplate "50% off}" 0%nat) /\
  (__init__ "50% off}" ∅ ∅).2 !! 0%nat = Some (ODict ∅) /\
  (∅ : gmap string value) !! "self" = None /\
  (format 1%nat ∅ (__init__ "50% off}" ∅ ∅).2).1
  = Raise (ValueError "Single '}' encountered in format string").
Proof.
  assert (H1 : (__init__ "50% off}" ∅ ∅).2 !! 1%nat = Some (OTemplate "50% off}" 0%nat))
    by (vm_compute; reflexivity).
  assert (H2 : (__init__ "50% off}" ∅ ∅).2 !! 0%nat = Some (ODict ∅))
    by (vm_compute; reflexivity).
  assert (H3 : (∅ : gmap string value) !! "self" = None)
    by (vm_compute; reflexivity).
  split; [exact H1 |]. split; [exact H2 |]. split; [exact H3 |].
  apply (proj1 (lone_brace_is_error _ 1%nat _ 0%nat ∅ ∅ H1 H2 H3) "50% off" EmptyString);
    reflexivity.
Defined.

(** X18. For a template of brace-free text and simple placeholders, with
    overrides that have no key [self] and values that [str] accepts, and
    with some placeholder lacking a value, the error of [format] names the
    first such placeholder in template order: every placeholder before it
    has a value. *)
Theorem first_missing_is_reported (σ : store) self segs ld d kw :
  σ !! self = Some (OTemplate (unparse segs) ld) ->
  σ !! ld = Some (ODict d) ->
  kw !! "self" = None ->
  forallb simple segs = true ->
  well_valued segs (effective d kw) = true ->
  (exists x, x ∈ names segs /\ effective d kw x = None) ->
  exists pre k post quoted,
    names segs = pre ++ k :: post /\
    Forall (fun x => is_Some (effective d kw x)) pre /\
    effective d kw k = None /\
    repr k = Some quoted /\
    (format self kw σ).1
    = Raise (ValueError ("Missing required template variable: " +:+ quoted)).
Proof.
  intros Hs Hd Hself Hsimple Hv (x & Hx & Hnone).
  rewrite (format_outcome _ _ _ _ _ kw Hs Hd Hself), (format_unparse _ _ Hsimple).
  rewrite (fill_ext segs _ (effective d kw)) by apply effective_union.
  destruct (fill segs (effective d kw)) as [e|s] eqn:E.
  - destruct (fill_failure _ _ _ Hv E) as [k ->].
    destruct (fill_first_missing _ _ _ E) as (pre & post & Hn & Hpre & Hk).
    destruct (fill_missing _ _ _ E) as [Hin _].
    destruct (simple_name_repr k (names_simple _ _ Hsimple Hin)) as [quoted Hq].
    exists pre, k, post, quoted. unfold missing_variable. by rewrite Hq.
  - destruct (fill_covered _ _ _ E x Hx) as [v Hv']. congruence.
Qed.

Lemma first_missing_is_reported_witness :
  (__init__ "{a}{b}{c}" {[ "a" := VInt 1 ]} ∅).2 !! 1%nat
    = Some (OTemplate (unparse [Var "a"; Var "b"; Var "c"]) 0%nat) /\
  (__init__ "{a}{b}{c}" {[ "a" := VInt 1 ]} ∅).2 !! 0%nat
    = Some (ODict {[ "a" := VInt 1 ]}) /\
  (∅ : gmap string value) !! "self" = None /\
  forallb simple [Var "a"; Var "b"; Var "c"] = true /\
  well_valued [Var "a"; Var "b"; Var "c"] (effective {[ "a" := VInt 1 ]} ∅) = true /\
  (exists x, x ∈ names [Var "a"; Var "b"; Var "c"] /\
             effective {[ "a" := VInt 1 ]} ∅ x = None) /\
  exists pre k post quoted,
    names [Var "a"; Var "b"; Var "c"] = pre ++ k :: post /\
    Forall (fun x => is_Some (effective {[ "a" := VInt 1 ]} ∅ x)) pre /\
    effective {[ "a" := VInt 1 ]} ∅ k = None /\
    repr k = Some quoted /\
    (format 1%nat ∅ (__init__ "{a}{b}{c}" {[ "a" := VInt 1 ]} ∅).2).1
    = Raise (ValueError ("Missing required template variable: " +:+ quoted)).
Proof.
  assert (H1 : (__init__ "{a}{b}{c}" {[ "a" := VInt 1 ]} ∅).2 !! 1%nat
               = Some (OTemplate (unparse [Var "a"; Var "b"; Var "c"]) 0%nat))
    by (vm_compute; reflexivity).
  assert (H2 : (__init__ "{a}{b}{c}" {[ "a" := VInt 1 ]} ∅).2 !! 0%nat
               = Some (ODict {[ "a" := VInt 1 ]})) by (vm_compute; reflexivity).
  assert (H3 : (∅ : gmap string value) !! "self" = None)
    by (vm_compute; reflexivity).
  assert (H4 : forallb simple [Var "a"; Var "b"; Var "c"] = true)
    by (vm_compute; reflexivity).
  assert (H5 : well_valued [Var "a"; Var "b"; Var "c"]
                 (effective {[ "a" := VInt 1 ]} ∅) = true)
    by (vm_compute; reflexivity).
  assert (H6 : exists x, x ∈ names [Var "a"; Var "b"; Var "c"] /\
                         effective {[ "a" := VInt 1 ]} ∅ x = None).
  { exists "c". split; [| vm_compute; reflexivity].
    simpl. do 2 right. left. }
  split; [exact H1 |]. split; [exact H2 |]. split; [exact H3 |]. split; [exact H4 |].
  split; [exact H5 |]. split; [exact H6 |].
  exact (first_missing_is_reported _ 1%nat _ 0%nat _ ∅ H1 H2 H3 H4 H5 H6).
Defined.

(** X19. Given defaults none of which is named [self] or [template], the
    constructor makes two new objects, the template and its defaults dict,
    and changes no other; the template string is stored as given, and
    [str(template)] returns it, also after any [format] or [validate] and
    whatever they returned or raised. *)
Theorem constructor_stores_template (σ0 : store) t d :
  d !! "self" = None ->
  d !! "template" = None ->
  exists self ld σ,
    __init__ t d σ0 = (Return self, σ) /\
    σ0 !! self = None /\ σ0 !! ld = None /\ self <> ld /\ σ0 ⊆ σ /\
    σ !! self = Some (OTemplate t ld) /\ σ !! ld = Some (ODict d) /\
    __str__ self σ = (Return t, σ) /\
    forall kw,
      (__str__ self (format self kw σ).2).1 = Return t /\
      (__str__ self (validate self kw σ).2).1 = Return t.
Proof.
  intros Hno1 Hno2.
  set (ld := fresh (dom σ0)).
  set (σ1 := <[ld := ODict d]> σ0).
  set (self := fresh (dom σ1)).
  assert (Hld : σ1 !! ld = Some (ODict d)) by apply lookup_insert_eq.
  assert (Hs : (<[self := OTemplate t ld]> σ1) !! self = Some (OTemplate t ld))
    by apply lookup_insert_eq.
  assert (Hd : (<[self := OTemplate t ld]> σ1) !! ld = Some (ODict d))
    by (by apply after_alloc).
  exists self, ld, (<[self := OTemplate t ld]> σ1).
  split; [by apply init_new |].
  split. { eapply lookup_weaken_None; [apply fresh_unused | apply insert_fresh_subseteq]. }
  split; [apply fresh_unused |].
  split. { apply not_eq_sym. by eapply used_not_fresh. }
  split. { etrans; apply insert_fresh_subseteq. }
  split; [done |]. split; [done |].
  split; [by apply (str_run _ _ _ ld) |].
  intros kw. split.
  - by rewrite (str_run _ _ _ _
                  (lookup_weaken _ _ _ _ Hs (format_grows _ _ _ _ _ kw Hs Hd))).
  - by rewrite (str_run _ _ _ _
                  (lookup_weaken _ _ _ _ Hs (validate_grows _ _ _ _ _ kw Hs Hd))).
Qed.

Lemma constructor_stores_template_witness :
  ({[ "name" := VStr "World" ]} : gmap string value) !! "self" = None /\
  ({[ "name" := VStr "World" ]} : gmap string value) !! "template" = None /\
  exists self ld σ,
    greeting = (Return self, σ) /\
    (∅ : store) !! self = None /\ (∅ : store) !! ld = None /\ self <> ld /\ ∅ ⊆ σ /\
    σ !! self = Some (OTemplate "Hello {name}" ld) /\
    σ !! ld = Some (ODict {[ "name" := VStr "World" ]}) /\
    __str__ self σ = (Return "Hello {name}", σ) /\
    forall kw,
      (__str__ self (format self kw σ).2).1 = Return "Hello {name}" /\
      (__str__ self (validate self kw σ).2).1 = Return "Hello {name}".
Proof.
  assert (H1 : ({[ "name" := VStr "World" ]} : gmap string value) !! "self" = None)
    by (vm_compute; reflexivity).
  assert (H2 : ({[ "name" := VStr "World" ]} : gmap string value) !! "template" = None)
    by (vm_compute; reflexivity).
  split; [exact H1 |]. split; [exact H2 |].
  exact (constructor_stores_template ∅ "Hello {name}" {[ "name" := VStr "World" ]} H1 H2).
Defined.

(** X20. Two templates constructed one after the other are different
    objects with defaults dicts of their own, and rendering or validating
    one leaves what the other renders unchanged. *)
Theorem templates_are_independent (σ0 σ1 σ2 : store) t1 d1 t2 d2 s1 s2 :
  __init__ t1 d1 σ0 = (Return s1, σ1) ->
  __init__ t2 d2 σ1 = (Return s2, σ2) ->
  s1 <> s2 /\
  forall kw1 kw2,
    (format s1 kw1 σ2).1 = (format s1 kw1 σ1).1 /\
    (format s1 kw1 (format s2 kw2 σ2).2).1 = (format s1 kw1 σ1).1 /\
    (format s1 kw1 (validate s2 kw2 σ2).2).1 = (format s1 kw1 σ1).1.
Proof.
  intros H1 H2.
  destruct (init_returns _ _ _ _ _ H1) as [Ha1 Hb1].
  destruct (init_returns _ _ _ _ _ H2) as [Ha2 Hb2].
  destruct (init_run σ0 t1 d1 Ha1 Hb1) as (s1' & l1 & σ1' & Hr1 & Hs1 & Hd1).
  rewrite Hr1 in H1. injection H1 as <- <-.
  destruct (init_run σ1' t2 d2 Ha2 Hb2) as (s2' & l2 & σ2' & Hr2 & Hs2 & Hd2).
  rewrite Hr2 in H2. injection H2 as <- <-.
  rewrite init_new in Hr2 by done. injection Hr2 as Es2 Eσ2.
  assert (Hsub : σ1' ⊆ σ2').
  { rewrite <- Eσ2. etrans; apply insert_fresh_subseteq. }
  pose proof (lookup_weaken _ _ _ _ Hs1 Hsub) as Hs1'.
  pose proof (lookup_weaken _ _ _ _ Hd1 Hsub) as Hd1'.
  split.
  { rewrite <- Es2. intros E.
    assert (Hin : (<[fresh (dom σ1') := ODict d2]> σ1') !! s1' = Some (OTemplate t1 l1))
      by (by apply after_alloc).
    rewrite E in Hin. by rewrite fresh_unused in Hin. }
  intros kw1 kw2.
  pose proof (format_grows _ _ _ _ _ kw2 Hs2 Hd2) as Hf.
  pose proof (validate_grows _ _ _ _ _ kw2 Hs2 Hd2) as Hv.
  repeat split.
  - exact (format_same _ _ _ _ _ _ _ _ kw1 Hs1' Hd1' Hs1 Hd1).
  - exact (format_same _ _ _ _ _ _ _ _ kw1
             (lookup_weaken _ _ _ _ Hs1' Hf) (lookup_weaken _ _ _ _ Hd1' Hf) Hs1 Hd1).
  - exact (format_same _ _ _ _ _ _ _ _ kw1
             (lookup_weaken _ _ _ _ Hs1' Hv) (lookup_weaken _ _ _ _ Hd1' Hv) Hs1 Hd1).
Qed.

Lemma templates_are_independent_witness :
  1%nat <> 3%nat /\
  forall kw1 kw2,
    (format 1%nat kw1 (__init__ "Bye {name}" ∅ greeting.2).2).1
    = (format 1%nat kw1 greeting.2).1 /\
    (format 1%nat kw1 (format 3%nat kw2 (__init__ "Bye {name}" ∅ greeting.2).2).2).1
    = (format 1%nat kw1 greeting.2).1 /\
    (format 1%nat kw1 (validate 3%nat kw2 (__init__ "Bye {name}" ∅ greeting.2).2).2).1
    = (format 1%nat kw1 greeting.2).1.
Proof.
  apply (templates_are_independent ∅ greeting.2 (__init__ "Bye {name}" ∅ greeting.2).2
           "Hello {name}" {[ "name" := VStr "World" ]} "Bye {name}" ∅ 1%nat 3%nat).
  - vm_compute; reflexivity.
  - vm_compute; reflexivity.
Defined.

End TemplateExtras.

(* ===================================================================== *)
(** ** Theorems about [PromptLibrary] *)
(* ===================================================================== *)

Module LibraryExtras.
Import Segments StoreFacts TemplateFacts TemplateMore PromptTemplate PromptLibrary.

Ltac catalog segs :=
  let self := fresh "self" in
  let σ := fresh "σ" in
  let Hrun := fresh "Hrun" in
  let Hnew := fresh "Hnew" in
  let Hvars := fresh "Hvars" in
  let Hfmt := fresh "Hfmt" in
  let Hval := fresh "Hval" in
  match goal with
  | Hself : ?kw !! "self" = None |- context [?factory ?σ0] =>
      destruct (catalog_run segs σ0 kw eq_refl Hself)
        as (self & σ & Hrun & Hnew & Hvars & Hfmt & Hval);
      exists self, σ;
      split; [exact Hrun |]; split; [exact Hnew |]; split; [exact Hvars |];
      split;
      [ rewrite Hfmt; cbn [fill];
        repeat match goal with
               | |- context [match ?m !! ?k with _ => _ end] =>
                   destruct (m !! k)
               | |- context [match str ?v with _ => _ end] =>
                   let E := fresh "E" in
                   destruct (str v) as [[]|] eqn:E;
                   [by apply str_not_key in E | ..]
               end; reflexivity
      | rewrite Hval; f_equal; apply bool_decide_ext; cbn [names];
        rewrite ?Forall_cons, Forall_nil; tauto ]
  end.

Ltac catalog_witness thm kw :=
  let H := fresh "H" in
  let self := fresh "self" in
  let σ := fresh "σ" in
  let Hrun := fresh "Hrun" in
  let Hvars := fresh "Hvars" in
  let Hfmt := fresh "Hfmt" in
  let Hval := fresh "Hval" in
  assert (H : kw !! "self" = None) by (vm_compute; reflexivity);
  split; [exact H |];
  destruct (thm (∅ : store) kw H) as (self & σ & Hrun & _ & Hvars & Hfmt & Hval);
  exists self, σ;
  split; [exact Hrun |]; split; [exact Hvars |];
  split; [rewrite Hfmt | rewrite Hval]; vm_compute; reflexivity.

(** X21. [question_answer()] makes a new template without defaults whose
    only variable is [question]. With overrides that have no key [self],
    [format] puts the text of the value of [question] between the fixed
    opening and the answer marker, raises the error of [str] when [str]
    refuses the value, and raises the missing-variable error when
    [question] is not given; [validate] tells whether it is given. *)
Theorem question_answer_renders (σ0 : store) kw :
  kw !! "self" = None ->
  exists self σ,
    question_answer σ0 = (Return self, σ) /\
    σ0 !! self = None /\
    get_variables self σ = (Return ["question"], σ) /\
    (format self kw σ).1 =
      (match kw !! "question" with
       | Some q =>
           match str q with
           | inr question =>
               Return ("Please answer the following question:" +:+ nl +:+ nl
                       +:+ "Question: " +:+ question +:+ nl +:+ nl +:+ "Answer:")
           | inl e => Raise e
           end
       | None => Raise (ValueError "Missing required template variable: 'question'")
       end) /\
    (validate self kw σ).1 = Return (bool_decide (is_Some (kw !! "question"))).
Proof.
  intros Hself.
  catalog [Lit ("Please answer the following question:" +:+ nl +:+ nl
                +:+ "Question: ");
           Var "question";
           Lit (nl +:+ nl +:+ "Answer:")].
Qed.

Lemma question_answer_renders_witness :
  ({[ "question" := VStr "Why?" ]} : gmap string value) !! "self" = None /\
  exists self σ,
    question_answer ∅ = (Return self, σ) /\
    get_variables self σ = (Return ["question"], σ) /\
    (format self {[ "question" := VStr "Why?" ]} σ).1
    = Return ("Please answer the following question:" +:+ nl +:+ nl
              +:+ "Question: Why?" +:+ nl +:+ nl +:+ "Answer:") /\
    (validate self {[ "question" := VStr "Why?" ]} σ).1 = Return true.
Proof.
  catalog_witness question_answer_renders
    ({[ "question" := VStr "Why?" ]} : gmap string value).
Defined.

(** X22. [summarization()] makes a new template without defaults whose
    only variable is [text]. With overrides that have no key [self],
    [format] puts the text of its value between the fixed opening and the
    summary marker, raises the error of [str] when [str] refuses the
    value, and raises the missing-variable error when [text] is not
    given. *)
Theorem summarization_renders (σ0 : store) kw :
  kw !! "self" = None ->
  exists self σ,
    summarization σ0 = (Return self, σ) /\
    σ0 !! self = None /\
    get_variables self σ = (Return ["text"], σ) /\
    (format self kw σ).1 =
      (match kw !! "text" with
       | Some t =>
           match str t with
           | inr text =>
               Return ("Please summarize the following text:" +:+ nl +:+ nl
                       +:+ text +:+ nl +:+ nl +:+ "Summary:")
           | inl e => Raise e
           end
       | None => Raise (ValueError "Missing required template variable: 'text'")
       end) /\
    (validate self kw σ).1 = Return (bool_decide (is_Some (kw !! "text"))).
Proof.
  intros Hself.
  catalog [Lit ("Please summarize the following text:" +:+ nl +:+ nl);
           Var "text";
           Lit (nl +:+ nl +:+ "Summary:")].
Qed.

Lemma summarization_renders_witness :
  ({[ "text" := VInt 42 ]} : gmap string value) !! "self" = None /\
  exists self σ,
    summarization ∅ = (Return self, σ) /\
    get_variables self σ = (Return ["text"], σ) /\
    (format self {[ "text" := VInt 42 ]} σ).1
    = Return ("Please summarize the following text:" +:+ nl +:+ nl
              +:+ "42" +:+ nl +:+ nl +:+ "Summary:") /\
    (validate self {[ "text" := VInt 42 ]} σ).1 = Return true.
Proof.
  catalog_witness summarization_renders ({[ "text" := VInt 42 ]} : gmap string value).
Defined.

(** X23. [translation()] makes a new template without defaults whose
    variables are [source_lang], [target_lang] and [text], in this order.
    With overrides that have no key [self], [format] puts the three values
    in their places; going through the three in this order, it raises the
    missing-variable error for the first that is not given, or the error
    of [str] for the first whose value [str] refuses. *)
Theorem translation_renders (σ0 : store) kw :
  kw !! "self" = None ->
  exists self σ,
    translation σ0 = (Return self, σ) /\
    σ0 !! self = None /\
    get_variables self σ = (Return ["source_lang"; "target_lang"; "text"], σ) /\
    (format self kw σ).1 =
      (match kw !! "source_lang" with
       | Some src =>
           match str src with
           | inr source =>
               match kw !! "target_lang" with
               | Some tgt =>
                   match str tgt with
                   | inr target =>
                       match kw !! "text" with
                       | Some t =>
                           match str t with
                           | inr text =>
                               Return ("Translate the following text from " +:+ source
                                       +:+ " to " +:+ target +:+ ":" +:+ nl +:+ nl
                                       +:+ text +:+ nl +:+ nl +:+ "Translation:")
                           | inl e => Raise e
                           end
                       | None =>
                           Raise (ValueError
                                    "Missing required template variable: 'text'")
                       end
                   | inl e => Raise e
                   end
               | None =>
                   Raise (ValueError
                            "Missing required template variable: 'target_lang'")
               end
           | inl e => Raise e
           end
       | None =>
           Raise (ValueError "Missing required template variable: 'source_lang'")
       end) /\
    (validate self kw σ).1
    = Return (bool_decide (is_Some (kw !! "source_lang") /\
                           is_Some (kw !! "target_lang") /\
                           is_Some (kw !! "text"))).
Proof.
  intros Hself.
  catalog [Lit "Translate the following text from ";
           Var "source_lang";
           Lit " to ";
           Var "target_lang";
           Lit (":" +:+ nl +:+ nl);
           Var "text";
           Lit (nl +:+ nl +:+ "Translation:")].
Qed.

Lemma translation_renders_witness :
  ({[ "source_lang" := VStr "en"; "text" := VStr "Hi" ]} : gmap string value)
    !! "self" = None /\
  exists self σ,
    translation ∅ = (Return self, σ) /\
    get_variables self σ = (Return ["source_lang"; "target_lang"; "text"], σ) /\
    (format self {[ "source_lang" := VStr "en"; "text" := VStr "Hi" ]} σ).1
    = Raise (ValueError "Missing required template variable: 'target_lang'") /\
    (validate self {[ "source_lang" := VStr "en"; "text" := VStr "Hi" ]} σ).1
    = Return false.
Proof.
  catalog_witness translation_renders
    ({[ "source_lang" := VStr "en"; "text" := VStr "Hi" ]} : gmap string value).
Defined.

(** X24. [code_generation()] makes a new template without defaults whose
    variables are [language] and [task], in this order. With overrides
    that have no key [self], [format] puts the two values in their places;
    going through the two in this order, it raises the missing-variable
    error for the first that is not given, or the error of [str] for the
    first whose value [str] refuses. *)
Theorem code_generation_renders (σ0 : store) kw :
  kw !! "self" = None ->
  exists self σ,
    code_generation σ0 = (Return self, σ) /\
    σ0 !! self = None /\
    get_variables self σ = (Return ["language"; "task"], σ) /\
    (format self kw σ).1 =
      (match kw !! "language" with
       | Some lang =>
           match str lang with
           | inr language =>
               match kw !! "task" with
               | Some tk =>
                   match str tk with
                   | inr task =>
                       Return ("Generate " +:+ language
                               +:+ " code for the following task:"
                               +:+ nl +:+ nl +:+ task +:+ nl +:+ nl +:+ "Code:")
                   | inl e => Raise e
                   end
               | None => Raise (ValueError "Missing required template variable: 'task'")
               end
           | inl e => Raise e
           end
       | None => Raise (ValueError "Missing required template variable: 'language'")
       end) /\
    (validate self kw σ).1
    = Return (bool_decide (is_Some (kw !! "language") /\ is_Some (kw !! "task"))).
Proof.
  intros Hself.
  catalog [Lit "Generate ";
           Var "language";
           Lit (" code for the following task:" +:+ nl +:+ nl);
           Var "task";
           Lit (nl +:+ nl +:+ "Code:")].
Qed.

Lemma code_generation_renders_witness :
  ({[ "language" := VStr "Python"; "task" := VStr "sort" ]} : gmap string value)
    !! "self" = None /\
  exists self σ,
    code_generation ∅ = (Return self, σ) /\
    get_variables self σ = (Return ["language"; "task"], σ) /\
    (format self {[ "language" := VStr "Python"; "task" := VStr "sort" ]} σ).1
    = Return ("Generate Python code for the following task:"
              +:+ nl +:+ nl +:+ "sort" +:+ nl +:+ nl +:+ "Code:") /\
    (validate self {[ "language" := VStr "Python"; "task" := VStr "sort" ]} σ).1
    = Return true.
Proof.
  catalog_witness code_generation_renders
    ({[ "language" := VStr "Python"; "task" := VStr "sort" ]} : gmap string value).
Defined.

(** X25. [classification()] makes a new template without defaults whose
    variables are [categories] and [text], in this order. With overrides
    that have no key [self], [format] puts the two values in their places;
    going through the two in this order, it raises the missing-variable
    error for the first that is not given, or the error of [str] for the
    first whose value [str] refuses. *)
Theorem classification_renders (σ0 : store) kw :
  kw !! "self" = None ->
  exists self σ,
    classification σ0 = (Return self, σ) /\
    σ0 !! self = None /\
    get_variables self σ = (Return ["categories"; "text"], σ) /\
    (format self kw σ).1 =
      (match kw !! "categories" with
       | Some cats =>
           match str cats with
           | inr categories =>
               match kw !! "text" with
               | Some t =>
                   match str t with
                   | inr text =>
                       Return ("Classify the following text into one of these categories: "
                               +:+ categories +:+ nl +:+ nl +:+ "Text: " +:+ text
                               +:+ nl +:+ nl +:+ "Category:")
                   | inl e => Raise e
                   end
               | None => Raise (ValueError "Missing required template variable: 'text'")
               end
           | inl e => Raise e
           end
       | None => Raise (ValueError "Missing required template variable: 'categories'")
       end) /\
    (validate self kw σ).1
    = Return (bool_decide (is_Some (kw !! "categories") /\ is_Some (kw !! "text"))).
Proof.
  intros Hself.
  catalog [Lit "Classify the following text into one of these categories: ";
           Var "categories";
           Lit (nl +:+ nl +:+ "Text: ");
           Var "text";
           Lit (nl +:+ nl +:+ "Category:")].
Qed.

Lemma classification_renders_witness :
  ({[ "text" := VStr "Hi" ]} : gmap string value) !! "self" = None /\
  exists self σ,
    classification ∅ = (Return self, σ) /\
    get_variables self σ = (Return ["categories"; "text"], σ) /\
    (format self {[ "text" := VStr "Hi" ]} σ).1
    = Raise (ValueError "Missing required template variable: 'categories'") /\
    (validate self {[ "text" := VStr "Hi" ]} σ).1 = Return false.
Proof.
  catalog_witness classification_renders ({[ "text" := VStr "Hi" ]} : gmap string value).
Defined.

End LibraryExtras.
